(** * LLMCalibrator: a shallow embedding of [llm_calibrator_core.py]

  The development follows the Python class [LLMCalibrator] method by
  method.  Conventions of the embedding:

  - a Python [str] is a [string] of ASCII characters: there [str.lower]
    maps [A-Z] to [a-z] and leaves every other character alone, and the
    regular-expression class [\w] is [[A-Za-z0-9_]]; the theorems that
    need this say so with the hypothesis [ascii_text]; a second model of
    the answer evaluator, on code points, covers Greek text;
  - [None] is the [None] of [option];
  - a Python number is an [int] (a [Z]) or a [float] (an IEEE-754
    binary64 value, Rocq's primitive [float]); the arithmetic follows
    Python's coercion rules, [OverflowError] included;
  - a call that may raise is an [outcome]: a returned value or a raised
    exception;
  - the two external services (the Gemini client and the VADER sentiment
    analyser) are parameters of the section that holds the class. *)

From Stdlib Require Import Bool Ascii String List ZArith Lia Floats Permutation.
Import ListNotations.

Local Open Scope list_scope.
Local Open Scope string_scope.

(** ** Python strings *)

Module PyStr.

Definition is_upper (c : ascii) : bool :=
  let n := N_of_ascii c in ((65 <=? n) && (n <=? 90))%N.

Definition is_lower (c : ascii) : bool :=
  let n := N_of_ascii c in ((97 <=? n) && (n <=? 122))%N.

Definition is_digit (c : ascii) : bool :=
  let n := N_of_ascii c in ((48 <=? n) && (n <=? 57))%N.

(** [str.lower] on one character of the ASCII range: the capitals A to Z
    become a to z, every other character stays.  A [string] is a text of
    8-bit characters; only its ASCII texts (see [ascii_text] below) are
    Python texts of this model, and the properties that depend on how
    text outside that range is lowered carry that hypothesis.  The
    lowering of code points beyond ASCII is in [PyUnicode]. *)
Definition lower_char (c : ascii) : ascii :=
  if is_upper c then ascii_of_N (N_of_ascii c + 32) else c.

(** [s.lower()] *)
Fixpoint lower (s : string) : string :=
  match s with
  | EmptyString => EmptyString
  | String c s' => String (lower_char c) (lower s')
  end.

(** [sub in s]: [sub] starts at some position of [s]. *)
Fixpoint contains (sub s : string) : bool :=
  prefix sub s ||
  match s with
  | EmptyString => false
  | String _ s' => contains sub s'
  end.

(** Two characters that differ at most by their case. *)
Definition same_letter (a b : ascii) : Prop := lower_char a = lower_char b.

(** [t] read without regard to case is [s]. *)
Definition equal_ignoring_case (s t : string) : Prop :=
  Forall2 same_letter (list_ascii_of_string s) (list_ascii_of_string t).

(** [sub] occurs in [s] as a contiguous run of characters, each compared
    without regard to case. *)
Definition occurs_ignoring_case (sub s : string) : Prop :=
  exists pre mid post,
    s = pre ++ mid ++ post /\ equal_ignoring_case mid sub.

(** A character of the ASCII range. *)
Definition is_ascii (c : ascii) : bool := (N_of_ascii c <? 128)%N.

(** A text of ASCII characters: the texts on which [lower] above is
    [str.lower]. *)
Fixpoint ascii_text (s : string) : bool :=
  match s with
  | EmptyString => true
  | String c s' => is_ascii c && ascii_text s'
  end.

(** The alphabet, in capitals and in small letters. *)
Definition capital_letters : string := "ABCDEFGHIJKLMNOPQRSTUVWXYZ".
Definition small_letters : string := "abcdefghijklmnopqrstuvwxyz".

(** [a] is a capital and [b] the small letter at the same place of the
    alphabet. *)
Fixpoint capital_and_small (a b : ascii) (capitals smalls : string) : bool :=
  match capitals, smalls with
  | String u capitals', String l smalls' =>
      ((a =? u)%char && (b =? l)%char) || capital_and_small a b capitals' smalls'
  | _, _ => false
  end.

(** The same character, or the capital and the small form of one letter. *)
Definition same_letter_any_case (a b : ascii) : bool :=
  (a =? b)%char
  || capital_and_small a b capital_letters small_letters
  || capital_and_small b a capital_letters small_letters.

(** Two texts of the same length whose characters agree up to case. *)
Definition agree_up_to_case (s t : string) : Prop :=
  Forall2 (fun a b => same_letter_any_case a b = true)
          (list_ascii_of_string s) (list_ascii_of_string t).

(** [sub] occurs in [s], up to the case of its letters. *)
Definition occurs_up_to_case (sub s : string) : Prop :=
  exists pre mid post, s = pre ++ mid ++ post /\ agree_up_to_case mid sub.

(** The 256 characters. *)
Definition all_characters : list ascii := map ascii_of_nat (seq 0 256).

End PyStr.

(** ** Python exceptions *)

Module PyExc.

(** The exceptions that matter to the class.  The last two derive from
    [BaseException] only; every other one is an instance of
    [Exception]. *)
Inductive exception : Type :=
| ZeroDivisionError
| OverflowError
| AttributeError
| ValueError
| ConnectionError       (* transport *)
| Unauthenticated       (* authentication *)
| ResourceExhausted     (* rate limit *)
| GoogleAPIError        (* any other provider error *)
| OtherException (name : string)
| KeyboardInterrupt
| SystemExit.

(** [isinstance(e, Exception)] *)
Definition isinstance_Exception (e : exception) : bool :=
  match e with
  | KeyboardInterrupt | SystemExit => false
  | _ => true
  end.

(** The result of a call: a value, or an exception on its way up. *)
Inductive outcome (A : Type) : Type :=
| Return (a : A)
| Raise (e : exception).
Arguments Return {A} a.
Arguments Raise {A} e.

Definition bind {A B : Type} (m : outcome A) (k : A -> outcome B) : outcome B :=
  match m with
  | Return a => k a
  | Raise e => Raise e
  end.

End PyExc.

Notation "x <- m ;; k" := (PyExc.bind m (fun x => k))
(at level 61, m at next level, right associativity).

(** ** Python numbers *)

Module PyNum.
Import PyExc.

Inductive number : Type :=
| PyInt (z : Z)
| PyFloat (f : float).

(** The result of a rounding, as CPython hands it on: an infinity that
    comes out of finite operands is an [OverflowError]. *)
Definition rounded (x : spec_float) : outcome float :=
  match x with
  | S754_infinity _ => Raise OverflowError
  | _ => Return (SF2Prim x)
  end.

(** [float(z)]: the binary64 value nearest to [z], ties to even;
    [OverflowError] when that is beyond the binary64 range. *)
Definition float_of_int (z : Z) : outcome float :=
  rounded (binary_normalize prec emax z 0 false).

(** An integer as an unrounded binary float, [z * 2**0]. *)
Definition SF_of_int (z : Z) : spec_float :=
  match z with
  | Z0 => S754_zero false
  | Zpos p => S754_finite false p 0
  | Zneg p => S754_finite true p 0
  end.

(** [a / b] on two ints, [b] not zero: the binary64 value nearest to the
    exact quotient; [OverflowError] when that is beyond the binary64
    range. *)
Definition int_truediv (a b : Z) : outcome float :=
  rounded (SFdiv prec emax (SF_of_int a) (SF_of_int b)).

Definition float_is_zero (f : float) : bool := PrimFloat.eqb f PrimFloat.zero.

(** [a + b] *)
Definition py_add (a b : number) : outcome number :=
  match a, b with
  | PyInt x, PyInt y => Return (PyInt (x + y))
  | PyInt x, PyFloat g => f <- float_of_int x ;; Return (PyFloat (f + g))
  | PyFloat f, PyInt y => g <- float_of_int y ;; Return (PyFloat (f + g))
  | PyFloat f, PyFloat g => Return (PyFloat (f + g))
  end.

(** [a - b] *)
Definition py_sub (a b : number) : outcome number :=
  match a, b with
  | PyInt x, PyInt y => Return (PyInt (x - y))
  | PyInt x, PyFloat g => f <- float_of_int x ;; Return (PyFloat (f - g))
  | PyFloat f, PyInt y => g <- float_of_int y ;; Return (PyFloat (f - g))
  | PyFloat f, PyFloat g => Return (PyFloat (f - g))
  end.

Definition float_truediv (f g : float) : outcome number :=
  if float_is_zero g then Raise ZeroDivisionError else Return (PyFloat (f / g)).

(** [a / b] *)
Definition py_truediv (a b : number) : outcome number :=
  match a, b with
  | PyInt x, PyInt y =>
      if (y =? 0)%Z then Raise ZeroDivisionError
      else f <- int_truediv x y ;; Return (PyFloat f)
  | PyInt x, PyFloat g => f <- float_of_int x ;; float_truediv f g
  | PyFloat f, PyInt y => g <- float_of_int y ;; float_truediv f g
  | PyFloat f, PyFloat g => float_truediv f g
  end.

(** [sum(xs)]: the additions run from the left, starting at the int 0,
    each one rounded (CPython up to 3.11; later versions carry a
    compensation term through a sum of floats, which is left out here). *)
Definition py_sum (xs : list number) : outcome number :=
  fold_left (fun acc x => a <- acc ;; py_add a x) xs (Return (PyInt 0)).

(** [len(xs)] *)
Definition len {A : Type} (xs : list A) : Z := Z.of_nat (length xs).

(** [x <= g] for an int and a binary float, compared exactly. *)
Definition int_le_SF (x : Z) (g : spec_float) : bool :=
  match g with
  | S754_nan => false
  | S754_infinity s => negb s
  | S754_zero _ => (x <=? 0)%Z
  | S754_finite s m e =>
      match e with
      | Zneg k => (x * 2 ^ Zpos k <=? cond_Zopp s (Zpos m))%Z
      | _ => (x <=? cond_Zopp s (Zpos m) * 2 ^ e)%Z
      end
  end.

(** [g <= y] for a binary float and an int, compared exactly. *)
Definition SF_le_int (g : spec_float) (y : Z) : bool :=
  match g with
  | S754_nan => false
  | S754_infinity s => s
  | S754_zero _ => (0 <=? y)%Z
  | S754_finite s m e =>
      match e with
      | Zneg k => (cond_Zopp s (Zpos m) <=? y * 2 ^ Zpos k)%Z
      | _ => (cond_Zopp s (Zpos m) * 2 ^ e <=? y)%Z
      end
  end.

(** [a <= b]; an int and a float are compared by their exact values,
    with no conversion. *)
Definition py_le (a b : number) : bool :=
  match a, b with
  | PyInt x, PyInt y => (x <=? y)%Z
  | PyInt x, PyFloat g => int_le_SF x (Prim2SF g)
  | PyFloat f, PyInt y => SF_le_int (Prim2SF f) y
  | PyFloat f, PyFloat g => PrimFloat.leb f g
  end.

Definition is_int (a : number) : bool :=
  match a with PyInt _ => true | PyFloat _ => false end.

(** The value of an int; 0 for a float. *)
Definition int_value (a : number) : Z :=
  match a with PyInt z => z | PyFloat _ => 0%Z end.

(** A binary float that is a zero, a positive finite number or the
    positive infinity: the floats [f] with [0.0 <= f]. *)
Definition nonneg_sf (x : spec_float) : bool :=
  match x with
  | S754_zero _ => true
  | S754_infinity s => negb s
  | S754_nan => false
  | S754_finite s _ _ => negb s
  end.

(** A positive finite binary float. *)
Definition pos_finite_sf (x : spec_float) : bool :=
  match x with
  | S754_finite s _ _ => negb s
  | _ => false
  end.

(** A positive binary float, finite or not. *)
Definition pos_sf (x : spec_float) : bool :=
  match x with
  | S754_finite s _ _ => negb s
  | S754_infinity s => negb s
  | _ => false
  end.

(** The two shapes of a rounded positive int: the positive infinity, on
    overflow, or a positive finite float in canonical form. *)
Definition rounded_pos (x : spec_float) : Prop :=
  x = S754_infinity false \/
  exists m e, x = S754_finite false m e /\ bounded prec emax m e = true.

(** The sum of the ints of a list. *)
Definition int_total (xs : list number) : Z :=
  fold_right (fun a acc => (int_value a + acc)%Z) 0%Z xs.

(** An int that is not negative, or any float. *)
Definition nonneg_int (a : number) : Prop :=
  match a with
  | PyInt z => (0 <= z)%Z
  | PyFloat _ => True
  end.

(** Scores that keep the arithmetic of the metric within the binary64
    range: the ints are not negative and sum to less than [2 ** 1023], and
    the list is one that CPython can hold. *)
Definition within_binary64 (xs : list number) : Prop :=
  Forall nonneg_int xs /\ (int_total xs < 2 ^ 1023)%Z /\ (len xs < 2 ^ 63)%Z.

(** A number [a] with [0 <= a]. *)
Definition nonneg (a : number) : Prop :=
  match a with
  | PyInt z => (0 <= z)%Z
  | PyFloat f => nonneg_sf (Prim2SF f) = true
  end.

End PyNum.

(** ** The fragment of [re] that the class uses *)

Module PyRe.
Import PyStr.

(** A compiled pattern is a sequence of atoms: literal characters and
    the zero-width assertion [\b]. *)
Inductive atom : Type :=
| Lit (c : ascii)
| WordBoundary.

(** [\w] on a character of the ASCII range: a letter, a digit or the
    underscore.  Beyond ASCII the [\w] of [re] follows Unicode, and such
    text is outside this model (see [PyStr.ascii_text]). *)
Definition is_word (c : ascii) : bool :=
  is_upper c || is_lower c || is_digit c || (c =? "_")%char.

Definition is_word_opt (c : option ascii) : bool :=
  match c with Some a => is_word a | None => false end.

Definition first (s : string) : option ascii :=
  match s with EmptyString => None | String c _ => Some c end.

(** [\b] holds between [prev] and the first character of [s] when exactly
    one of the two is a word character; the two ends of the text count
    as non-word characters. *)
Definition at_boundary (prev : option ascii) (s : string) : bool :=
  xorb (is_word_opt prev) (is_word_opt (first s)).

(** The pattern matches at the current position: [prev] is the character
    before it, [s] the text from it on. *)
Fixpoint match_here (p : list atom) (prev : option ascii) (s : string) : bool :=
  match p with
  | [] => true
  | WordBoundary :: p' => at_boundary prev s && match_here p' prev s
  | Lit c :: p' =>
      match s with
      | EmptyString => false
      | String d s' => (c =? d)%char && match_here p' (Some d) s'
      end
  end.

Fixpoint search_from (p : list atom) (prev : option ascii) (s : string) : bool :=
  match_here p prev s ||
  match s with
  | EmptyString => false
  | String d s' => search_from p (Some d) s'
  end.

(** [re.search(p, s)] as a truth value. *)
Definition search (p : list atom) (s : string) : bool := search_from p None s.

(** [re.escape(w)], compiled: every character of [w] stands for itself. *)
Definition escape (w : string) : list atom := map Lit (list_ascii_of_string w).

(** [r"\b" + re.escape(w) + r"\b"], compiled. *)
Definition whole_word (w : string) : list atom :=
  WordBoundary :: escape w ++ [WordBoundary].

(** The last character of [s], or [prev] when [s] is empty. *)
Fixpoint last_char (prev : option ascii) (s : string) : option ascii :=
  match s with
  | EmptyString => prev
  | String c s' => last_char (Some c) s'
  end.

(** [w] stands in [s] as a whole word: the character before it, if any,
    is not a word character, and neither is the character after it. *)
Definition stands_alone (w s : string) : Prop :=
  exists pre post,
    s = pre ++ w ++ post /\
    is_word_opt (last_char None pre) = false /\
    is_word_opt (first post) = false.

(** The same, comparing the letters without regard to case. *)
Definition stands_alone_ignoring_case (w s : string) : Prop :=
  exists pre mid post,
    s = pre ++ mid ++ post /\
    equal_ignoring_case mid w /\
    is_word_opt (last_char None pre) = false /\
    is_word_opt (first post) = false.

(** A marker that begins and ends with a word character. *)
Definition word_ended (w : string) : bool :=
  is_word_opt (first w) && is_word_opt (last_char None w).

(** The word characters of ASCII text: letters, digits and the
    underscore. *)
Definition word_characters : string :=
  "abcdefghijklmnopqrstuvwxyzABCDEFGHIJKLMNOPQRSTUVWXYZ0123456789_".

Fixpoint member (c : ascii) (s : string) : bool :=
  match s with
  | EmptyString => false
  | String d s' => (c =? d)%char || member c s'
  end.

(** No character, or a character that is not a word character. *)
Definition outside_word (c : option ascii) : Prop :=
  match c with
  | None => True
  | Some a => member a word_characters = false
  end.

(** [marker] stands in [s] as a whole word or phrase, up to the case of
    its letters: what comes right before it and right after it is the end
    of the text or a character outside the words. *)
Definition whole_word_up_to_case (marker s : string) : Prop :=
  exists pre mid post,
    s = pre ++ mid ++ post /\
    agree_up_to_case mid marker /\
    outside_word (last_char None pre) /\
    outside_word (first post).

End PyRe.

(** ** The class *)

Module LLMCalibrator.
Import PyExc PyNum.

(** The text returned by [query_llm] when the query raised. *)
Definition FAILURE : string := "Error querying model.".

(** What [SentimentIntensityAnalyzer.polarity_scores] returns. *)
Record polarity : Type := {
  neg : float;
  neu : float;
  pos : float;
  compound : float
}.

(** One entry of the [results] list. *)
Record ResultRecord : Type := {
  question : string;
  llm_answer : string;
  correct : bool;
  hedge_score : number
}.

(** [is_factually_correct(self, llm_answer, ground_truth)] *)
Definition is_factually_correct
    (llm_answer : string) (ground_truth : option string) : bool :=
  match ground_truth with
  | None => true
  | Some gt =>
      if (llm_answer =? FAILURE)%string then false
      else PyStr.contains (PyStr.lower gt) (PyStr.lower llm_answer)
  end.

Definition hedge_words : list string :=
  [ "might"; "could"; "may"; "possibly"; "probably"; "perhaps"; "seems";
    "appears"; "suggests"; "indicates"; "I'm not sure";
    "it is believed that"; "unsure"; "uncertain"; "speculative";
    "potential"; "it's possible"; "one might argue" ].

(** The test of the loop body of [detect_specific_hedges]. *)
Definition hedge_found (llm_answer_lower word_pattern : string) : bool :=
  PyRe.search (PyRe.whole_word (PyStr.lower word_pattern)) llm_answer_lower.

(** [detect_specific_hedges(self, llm_answer)] *)
Definition detect_specific_hedges (llm_answer : string) : Z :=
  if (llm_answer =? FAILURE)%string then 0%Z
  else
    let llm_answer_lower := PyStr.lower llm_answer in
    fold_left
      (fun hedge_score word_pattern =>
         if hedge_found llm_answer_lower word_pattern
         then (hedge_score + 1)%Z else hedge_score)
      hedge_words 0%Z.

(** The average of one partition; the int 0 when the partition is empty. *)
Definition average (hedging : list number) : outcome number :=
  match hedging with
  | [] => Return (PyInt 0)
  | _ :: _ =>
      total <- py_sum hedging ;;
      py_truediv total (PyInt (len hedging))
  end.

Definition correct_hedging (results : list ResultRecord) : list number :=
  map hedge_score (filter correct results).

Definition incorrect_hedging (results : list ResultRecord) : list number :=
  map hedge_score (filter (fun res => negb (correct res)) results).

(** [calculate_calibration(self, results)] *)
Definition calculate_calibration (results : list ResultRecord) : outcome number :=
  avg_correct_hedge <- average (correct_hedging results) ;;
  avg_incorrect_hedge <- average (incorrect_hedging results) ;;
  py_sub avg_incorrect_hedge avg_correct_hedge.

(** [model_name if model_name else self.model_name]: [None] and the
    empty text are both falsy. *)
Definition resolve_model_name
    (self_model_name : string) (model_name : option string) : string :=
  match model_name with
  | Some name => if (name =? "")%string then self_model_name else name
  | None => self_model_name
  end.

(** What [query_llm] prints: the two f-strings, by their fields. *)
Inductive printed : Type :=
| PrintedQuery (current_model_name question : string)
| PrintedError (current_model_name : string) (e : exception).

Section Services.

(** [genai.GenerativeModel(name).generate_content(question).text] *)
Variable generate_content : string -> string -> outcome string.

(** [self.sentiment_analyzer.polarity_scores] *)
Variable polarity_scores : string -> polarity.

(** [self.model_name] *)
Variable self_model_name : string.

(** [query_llm(self, question, model_name=None)]: the value returned or
    the exception raised, and what was printed. *)
Definition query_llm (question : string) (model_name : option string)
  : outcome string * list printed :=
  let current_model_name := resolve_model_name self_model_name model_name in
  let querying := PrintedQuery current_model_name question in
  match generate_content current_model_name question with
  | Return llm_answer => (Return llm_answer, [querying])
  | Raise e =>
      if isinstance_Exception e
      then (Return FAILURE, [querying; PrintedError current_model_name e])
      else (Raise e, [querying])
  end.

(** [detect_hedging(self, llm_answer)] *)
Definition detect_hedging (llm_answer : string) : number :=
  if (llm_answer =? FAILURE)%string then PyInt 0
  else
    let scores := polarity_scores llm_answer in
    PyFloat (neg scores + neu scores * 0.5).

End Services.

End LLMCalibrator.

(** ** The answer evaluator on code points *)

(** [is_factually_correct] once more, on texts of Unicode code points, for
    Basic Latin characters and the Greek letters U+0391 to U+03C9.  There
    [str.lower] still maps one character to one, but a capital sigma
    becomes a final sigma at the end of a word. *)
Module PyUnicode.

Local Open Scope N_scope.

Definition text : Type := list N.

(** The code points of a [string]. *)
Definition of_string (s : string) : text :=
  map N_of_ascii (list_ascii_of_string s).

Definition latin_capital (c : N) : bool := (65 <=? c) && (c <=? 90).

Definition latin_small (c : N) : bool := (97 <=? c) && (c <=? 122).

(** U+0391 to U+03A1 and U+03A3 to U+03A9 (U+03A2 is not assigned). *)
Definition greek_capital (c : N) : bool :=
  ((913 <=? c) && (c <=? 929)) || ((931 <=? c) && (c <=? 937)).

(** U+03B1 to U+03C9, the final sigma U+03C2 among them. *)
Definition greek_small (c : N) : bool := (945 <=? c) && (c <=? 969).

Definition capital_sigma : N := 931.   (* U+03A3 *)
Definition final_sigma : N := 962.     (* U+03C2 *)
Definition small_sigma : N := 963.     (* U+03C3 *)

(** The code points of this model: Basic Latin and the Greek letters. *)
Definition modelled (c : N) : bool :=
  (c <? 128) || greek_capital c || greek_small c.

(** The property Cased. *)
Definition cased (c : N) : bool :=
  latin_capital c || latin_small c || greek_capital c || greek_small c.

(** The property Case_Ignorable: the apostrophe, the full stop, the
    colon, the circumflex and the grave accent. *)
Definition case_ignorable (c : N) : bool :=
  existsb (N.eqb c) [39; 46; 58; 94; 96].

Fixpoint skip_case_ignorable (s : text) : text :=
  match s with
  | [] => []
  | c :: rest => if case_ignorable c then skip_case_ignorable rest else s
  end.

(** The lower case of a capital sigma: the final sigma when a cased
    character comes before it and none after it, case-ignorable
    characters skipped on both sides.  [before] is the text before the
    sigma, read backwards; [after] the text after it. *)
Definition lower_capital_sigma (before after : text) : N :=
  let preceded :=
    match skip_case_ignorable before with c :: _ => cased c | [] => false end in
  let followed :=
    match skip_case_ignorable after with c :: _ => cased c | [] => false end in
  if preceded && negb followed then final_sigma else small_sigma.

(** [str.lower] on a [modelled] code point other than the capital
    sigma: the small letter is 32 places on, in both alphabets. *)
Definition lower_char (c : N) : N :=
  if latin_capital c || greek_capital c then c + 32 else c.

Fixpoint lower_from (before s : text) : text :=
  match s with
  | [] => []
  | c :: rest =>
      (if c =? capital_sigma then lower_capital_sigma before rest
       else lower_char c)
        :: lower_from (c :: before) rest
  end.

(** [s.lower()] *)
Definition lower (s : text) : text := lower_from [] s.

Fixpoint starts_with (sub s : text) : bool :=
  match sub, s with
  | [], _ => true
  | _ :: _, [] => false
  | a :: sub', b :: s' => (a =? b) && starts_with sub' s'
  end.

(** [sub in s] *)
Fixpoint contains (sub s : text) : bool :=
  starts_with sub s ||
  match s with
  | [] => false
  | _ :: s' => contains sub s'
  end.

(** [s == t] *)
Fixpoint equal (s t : text) : bool :=
  match s, t with
  | [], [] => true
  | a :: s', b :: t' => (a =? b) && equal s' t'
  | _, _ => false
  end.

Definition FAILURE : text := of_string LLMCalibrator.FAILURE.

(** [is_factually_correct(self, llm_answer, ground_truth)] *)
Definition is_factually_correct
    (llm_answer : text) (ground_truth : option text) : bool :=
  match ground_truth with
  | None => true
  | Some gt =>
      if equal llm_answer FAILURE then false
      else contains (lower gt) (lower llm_answer)
  end.

(** The Greek words for "road" in capitals, U+039F U+0394 U+039F U+03A3,
    and the same letters followed by a capital alpha, U+0391. *)
Definition odos : text := [927; 916; 927; 931].
Definition odosa : text := [927; 916; 927; 931; 913].

End PyUnicode.

(** ** Sample results *)

Module Samples.
Import PyNum LLMCalibrator.

(** A correct result with a float hedge score. *)
Definition scored (hedge : float) : ResultRecord :=
  {| question := "q"; llm_answer := "a"; correct := true;
     hedge_score := PyFloat hedge |}.

(** Three correct results with the float hedge scores nearest to 0.1,
    0.2 and 0.3, and the same results in the reverse order. *)
Definition ascending : list ResultRecord :=
  [ scored 0x1.999999999999ap-4; scored 0x1.999999999999ap-3;
    scored 0x1.3333333333333p-2 ].

Definition descending : list ResultRecord :=
  [ scored 0x1.3333333333333p-2; scored 0x1.999999999999ap-3;
    scored 0x1.999999999999ap-4 ].

(** A result with a hedge score. *)
Definition result (is_correct : bool) (hedge : number) : ResultRecord :=
  {| question := "q"; llm_answer := "a"; correct := is_correct;
     hedge_score := hedge |}.

(** One correct result whose hedge score is the int [2 ** 1024], which no
    binary64 float can hold. *)
Definition overflowing : list ResultRecord :=
  [ result true (PyInt (2 ^ 1024)) ].

(** Two correct results: the int [2 ** 1024] and the float 0.5. *)
Definition overflowing_sum : list ResultRecord :=
  [ result true (PyInt (2 ^ 1024)); result true (PyFloat 0.5) ].

(** Two correct results: the count 1 and the float 0.5. *)
Definition both_correct : list ResultRecord :=
  [ result true (PyInt 1); result true (PyFloat 0.5) ].

(** A correct result with the count 1 and an incorrect one with the
    float 0.5. *)
Definition one_of_each : list ResultRecord :=
  [ result true (PyInt 1); result false (PyFloat 0.5) ].

End Samples.

(** ** The constructor *)

Module Constructor.
Import PyExc LLMCalibrator.

(** The truth value of an optional text: [None] and the empty text are
    falsy. *)
Definition truthy (s : option string) : bool :=
  match s with
  | Some t => negb (t =? "")%string
  | None => false
  end.

(** The calls that [__init__] makes outside the class. *)
Inductive call : Type :=
| EnvironGet                       (* os.environ.get("GOOGLE_API_KEY") *)
| ColabUserdataGet                 (* from google.colab import userdata; userdata.get(...) *)
| GenaiConfigure (api_key : string)
| NltkDataFind
| NltkDownload
| NewSentimentIntensityAnalyzer.

(** What those calls answer. *)
Record world : Type := {
  environ_get : option string;
  colab_userdata_get : outcome (option string);
  genai_configure : string -> outcome unit;
  nltk_data_find : outcome unit;
  has_DownloadError : bool;        (* hasattr(nltk.downloader, "DownloadError") *)
  is_DownloadError : exception -> bool;
  nltk_download : outcome unit;
  new_analyzer : outcome (string -> polarity)
}.

(** The attributes that [__init__] sets. *)
Record instance : Type := {
  model_name : string;
  sentiment_analyzer : string -> polarity
}.

(** A run: its result and the calls made, in order. *)
Definition run (A : Type) : Type := (outcome A * list call)%type.

Definition pure {A : Type} (a : A) : run A := (Return a, []).

Definition raise {A : Type} (e : exception) : run A := (Raise e, []).

Definition perform {A : Type} (c : call) (answer : outcome A) : run A :=
  (answer, [c]).

Definition and_then {A B : Type} (m : run A) (k : A -> run B) : run B :=
  match fst m with
  | Return a => (fst (k a), (snd m ++ snd (k a))%list)
  | Raise e => (Raise e, snd m)
  end.

(** [try: m  except ImportError: h  except Exception: h] (the handlers
    of [__init__] do not look at the exception). *)
Definition except_Exception {A : Type} (m : run A) (h : run A) : run A :=
  match fst m with
  | Return a => m
  | Raise e =>
      if isinstance_Exception e then (fst h, (snd m ++ snd h)%list) else m
  end.

(** [try: m  except nltk.downloader.DownloadError: h  except Exception: h].
    The name in the first clause is looked up only when [m] raises; when
    [nltk.downloader] has no such attribute that lookup raises
    [AttributeError], which leaves the statement. *)
Definition except_DownloadError_Exception {A : Type}
    (has : bool) (is_instance : exception -> bool) (m : run A) (h : run A)
  : run A :=
  match fst m with
  | Return a => m
  | Raise e =>
      if has then
        if is_instance e || isinstance_Exception e
        then (fst h, (snd m ++ snd h)%list)
        else m
      else (Raise AttributeError, snd m)
  end.

(** The three steps that look for the key. *)
Definition resolve_api_key (w : world) (api_key : option string)
  : run (option string) :=
  and_then
    (if truthy api_key then pure api_key
     else perform EnvironGet (Return (environ_get w)))
    (fun resolved_api_key =>
       if truthy resolved_api_key then pure resolved_api_key
       else except_Exception
              (perform ColabUserdataGet (colab_userdata_get w))
              (pure resolved_api_key)).

(** [__init__(self, api_key=None, model_name=None)] *)
Definition init (w : world) (api_key model_name : option string)
  : run instance :=
  match model_name with
  | None => raise ValueError
  | Some name =>
      and_then (resolve_api_key w api_key) (fun resolved_api_key =>
      match resolved_api_key with
      | Some key =>
          if (key =? "")%string then raise ValueError
          else
            and_then (perform (GenaiConfigure key) (genai_configure w key))
              (fun _ =>
            and_then (except_DownloadError_Exception
                        (has_DownloadError w) (is_DownloadError w)
                        (perform NltkDataFind (nltk_data_find w))
                        (perform NltkDownload (nltk_download w)))
              (fun _ =>
            and_then (perform NewSentimentIntensityAnalyzer (new_analyzer w))
              (fun analyzer =>
            pure {| model_name := name; sentiment_analyzer := analyzer |})))
      | None => raise ValueError
      end)
  end.

(** The first of the three sources that holds a non-empty key. *)
Definition first_key (w : world) (api_key : option string) : option string :=
  if truthy api_key then api_key
  else if truthy (environ_get w) then environ_get w
  else match colab_userdata_get w with
       | Return v => if truthy v then v else None
       | Raise _ => None
       end.

(** An analyser that finds every text neutral. *)
Definition neutral (text : string) : polarity :=
  {| neg := 0; neu := 1; pos := 0; compound := 0 |}.

(** A machine with the key in the environment and the lexicon in place;
    [nltk.downloader] has no attribute [DownloadError]. *)
Definition lexicon_present : world :=
  {| environ_get := Some "from-env";
     colab_userdata_get := Raise (OtherException "ImportError");
     genai_configure := fun _ => Return tt;
     nltk_data_find := Return tt;
     has_DownloadError := false;
     is_DownloadError := fun _ => false;
     nltk_download := Return tt;
     new_analyzer := Return neutral |}.

(** The same machine without the lexicon: the lookup raises
    [LookupError]. *)
Definition lexicon_missing : world :=
  {| environ_get := Some "from-env";
     colab_userdata_get := Raise (OtherException "ImportError");
     genai_configure := fun _ => Return tt;
     nltk_data_find := Raise (OtherException "LookupError");
     has_DownloadError := false;
     is_DownloadError := fun _ => false;
     nltk_download := Return tt;
     new_analyzer := Return neutral |}.

End Constructor.

(** ** The report *)

Module Reporter.
Import PyNum LLMCalibrator.



Section Format.

(** [format(x, ".2f")] *)
Variable format_2f : number -> string.



End Format.

End Reporter.

(** * Properties *)

Module PyStrFacts.
Import PyStr.

Lemma prefix_app (p s : string) :
  prefix p s = true <-> exists post, s = p ++ post.
Proof.
  revert s; induction p as [|a p IH]; intros s.
  - split; [intros _; now exists s | intros _; now destruct s].
  - destruct s as [|b s]; simpl.
    + split; [discriminate | intros [post H]; discriminate].
    + destruct (ascii_dec a b) as [Hab|Hab].
      * rewrite IH. split; intros [post H]; exists post.
        -- now subst.
        -- now injection H.
      * split; [discriminate | intros [post H]; injection H; congruence].
Qed.

Lemma contains_nil (sub : string) :
  contains sub EmptyString = prefix sub EmptyString.
Proof. unfold contains. apply orb_false_r. Qed.

Lemma contains_cons (sub : string) (c : ascii) (s : string) :
  contains sub (String c s) = prefix sub (String c s) || contains sub s.
Proof. reflexivity. Qed.

Lemma contains_spec (sub s : string) :
  contains sub s = true <-> exists pre post, s = pre ++ sub ++ post.
Proof.
  induction s as [|c s IH].
  - rewrite contains_nil, prefix_app. split.
    + intros [post H]. now exists EmptyString, post.
    + intros [pre [post H]]. destruct pre; simpl in H.
      * now exists post.
      * discriminate.
  - rewrite contains_cons, orb_true_iff, prefix_app, IH. split.
    + intros [[post H]|[pre [post H]]].
      * now exists EmptyString, post.
      * exists (String c pre), post. simpl. now rewrite H.
    + intros [pre [post H]]. destruct pre as [|a pre]; simpl in H.
      * left. now exists post.
      * right. exists pre, post. now injection H.
Qed.

Lemma lower_app (s t : string) : lower (s ++ t) = lower s ++ lower t.
Proof. induction s; simpl; congruence. Qed.

(** A string whose lower-casing splits in two splits the same way. *)
Lemma lower_split (s u v : string) :
  lower s = u ++ v ->
  exists s1 s2, s = s1 ++ s2 /\ lower s1 = u /\ lower s2 = v.
Proof.
  revert s; induction u as [|a u IH]; intros s H; simpl in H.
  - now exists EmptyString, s.
  - destruct s as [|c s]; [discriminate|]. simpl in H.
    injection H as Hc Hs. destruct (IH _ Hs) as (s1 & s2 & -> & H1 & H2).
    exists (String c s1), s2. simpl. now rewrite Hc, H1.
Qed.

Lemma equal_ignoring_case_lower (s t : string) :
  equal_ignoring_case s t <-> lower s = lower t.
Proof.
  unfold equal_ignoring_case. revert t.
  induction s as [|a s IH]; intros [|b t]; simpl; split; intros H;
    try reflexivity; try discriminate; try (now inversion H);
    try constructor.
  - inversion H; subst. f_equal; [assumption | now apply IH].
  - now injection H.
  - apply IH. now injection H.
Qed.

Lemma contains_lower (sub s : string) :
  contains (lower sub) (lower s) = true <-> occurs_ignoring_case sub s.
Proof.
  rewrite contains_spec. unfold occurs_ignoring_case. split.
  - intros (u & v & H).
    destruct (lower_split _ _ _ H) as (pre & rest & -> & Hpre & Hrest).
    destruct (lower_split _ _ _ Hrest) as (mid & post & -> & Hmid & Hpost).
    exists pre, mid, post. split; [reflexivity|].
    now apply equal_ignoring_case_lower.
  - intros (pre & mid & post & -> & H).
    apply equal_ignoring_case_lower in H.
    exists (lower pre), (lower post). now rewrite !lower_app, H.
Qed.

Lemma In_all_characters (c : ascii) : In c all_characters.
Proof.
  unfold all_characters. apply in_map_iff. exists (nat_of_ascii c).
  split; [apply ascii_nat_embedding|].
  apply in_seq. pose proof (nat_ascii_bounded c). lia.
Qed.

(** On all 256 x 256 pairs, the two characters are one letter up to case
    exactly when [lower_char] sends them to the same character. *)
Lemma same_letter_any_case_table :
  forallb (fun a =>
             forallb (fun b =>
                        Bool.eqb (same_letter_any_case a b)
                                 (lower_char a =? lower_char b)%char)
                     all_characters)
          all_characters = true.
Proof. vm_compute. reflexivity. Qed.

Lemma same_letter_any_case_lower (a b : ascii) :
  same_letter_any_case a b = true <-> lower_char a = lower_char b.
Proof.
  pose proof same_letter_any_case_table as H.
  rewrite forallb_forall in H. specialize (H a (In_all_characters a)).
  rewrite forallb_forall in H. specialize (H b (In_all_characters b)).
  apply eqb_prop in H. rewrite H. apply Ascii.eqb_eq.
Qed.

Lemma agree_up_to_case_lower (s t : string) :
  agree_up_to_case s t <-> equal_ignoring_case s t.
Proof.
  unfold agree_up_to_case, equal_ignoring_case, same_letter.
  split; apply Forall2_impl; intros a b; apply same_letter_any_case_lower.
Qed.

Lemma occurs_up_to_case_lower (sub s : string) :
  occurs_up_to_case sub s <-> occurs_ignoring_case sub s.
Proof.
  unfold occurs_up_to_case, occurs_ignoring_case.
  split; intros (pre & mid & post & E & H); exists pre, mid, post;
    (split; [exact E|]); now apply agree_up_to_case_lower.
Qed.

End PyStrFacts.

(** ** Word boundaries *)

Module PyReFacts.
Import PyStr PyRe PyStrFacts.

Lemma is_word_lower_char (c : ascii) : is_word (lower_char c) = is_word c.
Proof. destruct c as [[] [] [] [] [] [] [] []]; reflexivity. Qed.

Lemma first_lower (s : string) :
  is_word_opt (first (lower s)) = is_word_opt (first s).
Proof. destruct s; simpl; [reflexivity | apply is_word_lower_char]. Qed.

Lemma last_char_lower (prev : option ascii) (s : string) :
  is_word_opt (last_char (option_map lower_char prev) (lower s))
  = is_word_opt (last_char prev s).
Proof.
  revert prev; induction s as [|c s IH]; intros prev; simpl.
  - destruct prev; simpl; [apply is_word_lower_char | reflexivity].
  - apply (IH (Some c)).
Qed.

Lemma last_char_lower_None (s : string) :
  is_word_opt (last_char None (lower s)) = is_word_opt (last_char None s).
Proof. exact (last_char_lower None s). Qed.

(** The literal part of the pattern, then the closing [\b]. *)
Lemma match_here_escape (w : string) (prev : option ascii) (s : string) :
  match_here (escape w ++ [WordBoundary]) prev s = true <->
  exists post, s = w ++ post /\ at_boundary (last_char prev w) post = true.
Proof.
  revert prev s; induction w as [|c w IH]; intros prev s.
  - simpl. rewrite andb_true_r. split.
    + intros H. now exists s.
    + now intros [post [-> H]].
  - change (escape (String c w) ++ [WordBoundary])%list
      with (Lit c :: (escape w ++ [WordBoundary]))%list.
    destruct s as [|d s]; simpl.
    + split; [discriminate | intros [post [H _]]; discriminate].
    + rewrite andb_true_iff, IH, Ascii.eqb_eq. split.
      * intros [-> [post [-> H]]]. now exists post.
      * intros [post [E H]]. injection E as -> ->. split; [reflexivity|].
        now exists post.
Qed.

Lemma match_here_whole_word (w : string) (prev : option ascii) (s : string) :
  match_here (whole_word w) prev s = true <->
  at_boundary prev s = true /\
  exists post, s = w ++ post /\ at_boundary (last_char prev w) post = true.
Proof.
  unfold whole_word. simpl. now rewrite andb_true_iff, match_here_escape.
Qed.

Lemma search_from_whole_word (w : string) (prev : option ascii) (s : string) :
  search_from (whole_word w) prev s = true <->
  exists pre post,
    s = pre ++ w ++ post /\
    at_boundary (last_char prev pre) (w ++ post) = true /\
    at_boundary (last_char (last_char prev pre) w) post = true.
Proof.
  revert prev; induction s as [|d s IH]; intros prev.
  - cbn [search_from]. rewrite orb_false_r, match_here_whole_word. split.
    + intros [Hb [post [E He]]]. exists EmptyString, post. simpl.
      rewrite <- E. auto.
    + intros [pre [post [E [Hb He]]]]. destruct pre; [|discriminate].
      simpl in *. rewrite E. split; [assumption|]. now exists post.
  - cbn [search_from]. rewrite orb_true_iff, match_here_whole_word, IH. split.
    + intros [[Hb [post [E He]]]|[pre [post [E [Hb He]]]]].
      * exists EmptyString, post. simpl. rewrite <- E. auto.
      * exists (String d pre), post. simpl. rewrite E. auto.
    + intros [pre [post [E [Hb He]]]]. destruct pre as [|a pre].
      * left. simpl in *. rewrite E. split; [assumption|]. now exists post.
      * right. simpl in E. injection E as -> ->. exists pre, post. auto.
Qed.

Lemma first_app_word (w post : string) :
  is_word_opt (first w) = true -> first (w ++ post) = first w.
Proof. destruct w; simpl; [discriminate | reflexivity]. Qed.

Lemma last_char_word (prev : option ascii) (w : string) :
  is_word_opt (first w) = true -> last_char prev w = last_char None w.
Proof. destruct w; simpl; [discriminate | reflexivity]. Qed.

(** For a marker that begins and ends with a word character, the search
    succeeds exactly when the marker stands alone in the text. *)
Lemma search_whole_word (w s : string) :
  word_ended w = true ->
  search (whole_word w) s = true <-> stands_alone w s.
Proof.
  unfold word_ended, search, stands_alone. rewrite andb_true_iff.
  intros [Hf Hl]. rewrite search_from_whole_word.
  split; intros [pre [post [E [Hb He]]]]; exists pre, post;
    (split; [exact E|]); unfold at_boundary in *;
    rewrite (first_app_word _ _ Hf), Hf in *;
    rewrite (last_char_word _ _ Hf), Hl in *.
  - split.
    + now destruct (is_word_opt (last_char None pre)).
    + now destruct (is_word_opt (first post)).
  - now rewrite Hb, He.
Qed.

Lemma word_ended_lower (w : string) : word_ended (lower w) = word_ended w.
Proof.
  unfold word_ended. rewrite first_lower.
  now rewrite last_char_lower_None.
Qed.

(** Standing alone in the lower-cased text is standing alone in the text,
    up to case. *)
Lemma stands_alone_lower (w s : string) :
  stands_alone (lower w) (lower s) <-> stands_alone_ignoring_case w s.
Proof.
  unfold stands_alone, stands_alone_ignoring_case. split.
  - intros (u & v & E & Hu & Hv).
    destruct (lower_split _ _ _ E) as (pre & rest & -> & <- & Hrest).
    destruct (lower_split _ _ _ Hrest) as (mid & post & -> & Hmid & <-).
    exists pre, mid, post. repeat split.
    + now apply equal_ignoring_case_lower.
    + now rewrite <- last_char_lower_None.
    + now rewrite <- first_lower.
  - intros (pre & mid & post & -> & Hmid & Hpre & Hpost).
    apply equal_ignoring_case_lower in Hmid.
    exists (lower pre), (lower post). rewrite !lower_app, Hmid.
    repeat split.
    + now rewrite last_char_lower_None.
    + now rewrite first_lower.
Qed.

Lemma member_word_characters (c : ascii) :
  member c word_characters = is_word c.
Proof. destruct c as [[] [] [] [] [] [] [] []]; reflexivity. Qed.

Lemma outside_word_is_word (c : option ascii) :
  outside_word c <-> is_word_opt c = false.
Proof.
  destruct c as [a|]; unfold outside_word, is_word_opt; [|tauto].
  now rewrite member_word_characters.
Qed.

Lemma whole_word_up_to_case_stands_alone (marker s : string) :
  whole_word_up_to_case marker s <-> stands_alone_ignoring_case marker s.
Proof.
  unfold whole_word_up_to_case, stands_alone_ignoring_case.
  split; intros (pre & mid & post & E & Hm & Hpre & Hpost);
    exists pre, mid, post; (split; [exact E|]);
    (split; [now apply agree_up_to_case_lower|]);
    split; now apply outside_word_is_word.
Qed.

End PyReFacts.

(** ** The answer evaluator and the lexical hedge count *)

Module TextClaims.
Import PyStr PyRe PyStrFacts PyReFacts PyExc PyNum LLMCalibrator.

Lemma not_failure (llm_answer : string) :
  llm_answer <> FAILURE -> (llm_answer =? FAILURE)%string = false.
Proof. intros H. now apply String.eqb_neq. Qed.

(** C1, at the input where the code departs from it: with no ground
    truth the FAILURE text is judged correct, because the test for an
    absent ground truth comes first and answers [True]; with a ground
    truth the FAILURE text is judged incorrect, as the claim and the
    comment "If model query failed, it cannot be correct" say. *)
Theorem is_factually_correct_failure_without_ground_truth :
  is_factually_correct FAILURE None = true /\
  (forall gt, is_factually_correct FAILURE (Some gt) = false).
Proof. split; reflexivity. Qed.

(** C2, as stated, fails beyond ASCII: [str.lower] turns a capital sigma
    at the end of a word into a final sigma, so the ground truth
    [odos], which is the beginning of the answer [odosa], is not found in
    it once both are lowered. *)
Lemma is_factually_correct_final_sigma :
  forallb PyUnicode.modelled PyUnicode.odosa = true /\
  PyUnicode.equal PyUnicode.odosa PyUnicode.FAILURE = false /\
  PyUnicode.odosa = (PyUnicode.odos ++ [913%N])%list /\
  PyUnicode.contains PyUnicode.odos PyUnicode.odosa = true /\
  PyUnicode.lower PyUnicode.odos = [959; 948; 959; 962]%N /\
  PyUnicode.lower PyUnicode.odosa = [959; 948; 959; 963; 945]%N /\
  PyUnicode.is_factually_correct PyUnicode.odosa (Some PyUnicode.odos)
  = false.
Proof. repeat split. Qed.

Lemma is_factually_correct_lower (llm_answer gt : string) :
  llm_answer <> FAILURE ->
  is_factually_correct llm_answer (Some gt) = true <->
  occurs_up_to_case gt llm_answer.
Proof.
  intros H. unfold is_factually_correct. rewrite (not_failure _ H).
  rewrite occurs_up_to_case_lower. apply contains_lower.
Qed.

(** C2, amended: for an ASCII answer other than the FAILURE text and an
    ASCII ground truth that is present, the evaluator answers [True]
    exactly when the ground truth occurs in the answer as a run of
    characters, up to the case of the letters. *)
Theorem is_factually_correct_substring (llm_answer gt : string) :
  ascii_text llm_answer = true ->
  ascii_text gt = true ->
  llm_answer <> FAILURE ->
  is_factually_correct llm_answer (Some gt) = true <->
  occurs_up_to_case gt llm_answer.
Proof. intros _ _. apply is_factually_correct_lower. Qed.

(** "paris" is found in "The capital is Paris.", "London" is not. *)
Lemma is_factually_correct_substring_witness :
  (is_factually_correct "The capital is Paris." (Some "paris") = true /\
   occurs_up_to_case "paris" "The capital is Paris.") /\
  (is_factually_correct "The capital is Paris." (Some "London") = false /\
   ~ occurs_up_to_case "London" "The capital is Paris.").
Proof.
  split.
  - split; [reflexivity|].
    apply (is_factually_correct_substring "The capital is Paris." "paris");
      [reflexivity | reflexivity | discriminate | reflexivity].
  - split; [reflexivity|]. intros H.
    apply (is_factually_correct_substring "The capital is Paris." "London")
      in H; [discriminate H | reflexivity | reflexivity | discriminate].
Defined.

Lemma hedge_words_word_ended :
  Forall (fun marker => word_ended (lower marker) = true) hedge_words.
Proof. unfold hedge_words. repeat constructor. Qed.

Lemma hedge_found_stands_alone (llm_answer marker : string) :
  word_ended (lower marker) = true ->
  hedge_found (lower llm_answer) marker = true <->
  stands_alone_ignoring_case marker llm_answer.
Proof.
  intros H. unfold hedge_found.
  now rewrite (search_whole_word _ _ H), stands_alone_lower.
Qed.

Lemma hedge_found_whole_word (llm_answer marker : string) :
  In marker hedge_words ->
  hedge_found (lower llm_answer) marker = true <->
  whole_word_up_to_case marker llm_answer.
Proof.
  intros Hin. pose proof hedge_words_word_ended as Hw.
  rewrite Forall_forall in Hw.
  rewrite (hedge_found_stands_alone _ _ (Hw marker Hin)).
  symmetry. apply whole_word_up_to_case_stands_alone.
Qed.



(** The loop of [detect_specific_hedges] adds one for each element of the
    list that passes the test. *)
Lemma count_loop (test : string -> bool) (words : list string) (start : Z) :
  fold_left (fun hedge_score word_pattern =>
               if test word_pattern then (hedge_score + 1)%Z else hedge_score)
            words start
  = (start + Z.of_nat (length (filter test words)))%Z.
Proof.
  revert start; induction words as [|w words IH]; intros start; simpl.
  - lia.
  - rewrite IH. destruct (test w); simpl length; lia.
Qed.

Lemma detect_specific_hedges_count (llm_answer : string) :
  detect_specific_hedges llm_answer
  = if (llm_answer =? FAILURE)%string then 0%Z
    else Z.of_nat (length (filter (hedge_found (lower llm_answer)) hedge_words)).
Proof.
  unfold detect_specific_hedges.
  destruct (llm_answer =? FAILURE)%string; [reflexivity|].
  now rewrite count_loop.
Qed.

Lemma hedge_words_NoDup : NoDup hedge_words.
Proof.
  unfold hedge_words.
  repeat (constructor;
          [simpl; intros H;
           repeat (destruct H as [H|H]; [discriminate H|]); exact H|]).
  constructor.
Qed.

(** C5: the count is the number of markers of the list that are found at
    least once; the list names each marker once, so a marker adds at most
    one, however often it occurs, and the count never exceeds the length
    of the list.  An answer with "might" twice and "possibly" once
    scores 2; in "One might argue" the nested markers "might" and
    "one might argue" add one each. *)
Theorem lexical_hedge_counts_presence :
  (forall llm_answer,
      detect_specific_hedges llm_answer
      = if (llm_answer =? FAILURE)%string then 0%Z
        else Z.of_nat (length (filter (hedge_found (lower llm_answer))
                                      hedge_words))) /\
  NoDup hedge_words /\
  (forall llm_answer,
      (0 <= detect_specific_hedges llm_answer <= len hedge_words)%Z) /\
  detect_specific_hedges "It might rain, it MIGHT not; possibly." = 2%Z /\
  detect_specific_hedges "One might argue" = 2%Z.
Proof.
  split; [exact detect_specific_hedges_count|].
  split; [exact hedge_words_NoDup|].
  split; [|split; reflexivity].
  intros llm_answer. rewrite detect_specific_hedges_count.
  destruct (llm_answer =? FAILURE)%string.
  - unfold len. simpl. lia.
  - pose proof (filter_length_le (hedge_found (lower llm_answer)) hedge_words).
    unfold len. lia.
Qed.

End TextClaims.

(** ** Signs of binary64 results *)

Module PyNumFacts.
Import PyExc PyNum.
Local Open Scope Z_scope.

Lemma shr_1_nonneg (mrs : shr_record) :
  0 <= shr_m mrs -> 0 <= shr_m (shr_1 mrs).
Proof.
  destruct mrs as [m r s]. simpl.
  destruct m as [|[p|p|]|p]; simpl; lia.
Qed.

Lemma iter_pos_invariant {A : Type} (f : A -> A) (P : A -> Prop) :
  (forall x, P x -> P (f x)) ->
  forall n x, P x -> P (iter_pos f n x).
Proof. intros Hf. induction n; simpl; auto. Qed.

Lemma shr_nonneg (mrs : shr_record) (e n : Z) :
  0 <= shr_m mrs -> 0 <= shr_m (fst (shr mrs e n)).
Proof.
  intros H. destruct n; simpl; try assumption.
  apply (iter_pos_invariant shr_1 (fun r => 0 <= shr_m r)); auto.
  apply shr_1_nonneg.
Qed.

Lemma shr_m_of_loc (m : Z) (l : location) : shr_m (shr_record_of_loc m l) = m.
Proof. destruct l as [|[]]; reflexivity. Qed.

Lemma shr_fexp_nonneg (m e : Z) (l : location) :
  0 <= m -> 0 <= shr_m (fst (shr_fexp prec emax m e l)).
Proof.
  intros H. unfold shr_fexp. apply shr_nonneg. now rewrite shr_m_of_loc.
Qed.

Lemma round_nearest_even_nonneg (m : Z) (l : location) :
  0 <= m -> 0 <= round_nearest_even m l.
Proof.
  intros H. destruct l as [|[]]; simpl; try assumption; try lia.
  destruct (Z.even m); lia.
Qed.

Lemma binary_round_aux_nonneg (m e : Z) (l : location) :
  0 <= m -> nonneg_sf (binary_round_aux prec emax false m e l) = true.
Proof.
  intros H. unfold binary_round_aux.
  pose proof (shr_fexp_nonneg m e l H) as H1.
  destruct (shr_fexp prec emax m e l) as [mrs' e']. simpl in H1.
  pose proof (shr_fexp_nonneg _ e' loc_Exact
                (round_nearest_even_nonneg _ (loc_of_shr_record mrs') H1)) as H2.
  destruct (shr_fexp prec emax _ e' loc_Exact) as [mrs'' e'']. simpl in H2.
  destruct (shr_m mrs'') as [|q|q]; [reflexivity | | lia].
  now destruct (e'' <=? emax - prec).
Qed.

Lemma binary_round_nonneg (m : positive) (e : Z) :
  nonneg_sf (binary_round prec emax false m e) = true.
Proof.
  unfold binary_round.
  destruct (shl_align m e _) as [mz ez].
  apply binary_round_aux_nonneg. lia.
Qed.

Lemma binary_normalize_nonneg (z e : Z) :
  0 <= z -> nonneg_sf (binary_normalize prec emax z e false) = true.
Proof.
  intros H. destruct z; simpl; [reflexivity | apply binary_round_nonneg | lia].
Qed.

Lemma SFadd_nonneg (x y : spec_float) :
  nonneg_sf x = true -> nonneg_sf y = true ->
  nonneg_sf (SFadd prec emax x y) = true.
Proof.
  destruct x as [sx|sx| |sx mx ex], y as [sy|sy| |sy my ey];
    simpl; try discriminate; intros Hx Hy;
    try (destruct sx; try discriminate); try (destruct sy; try discriminate);
    try reflexivity.
  apply binary_round_nonneg.
Qed.

Lemma SFdiv_nonneg (x y : spec_float) :
  nonneg_sf x = true -> pos_finite_sf y = true ->
  nonneg_sf (SFdiv prec emax x y) = true.
Proof.
  destruct y as [sy|sy| |sy my ey]; try discriminate.
  destruct sy; try discriminate. intros Hx _.
  destruct x as [sx|sx| |sx mx ex]; try discriminate;
    [now destruct sx | now destruct sx |].
  destruct sx; try discriminate. unfold SFdiv.
  unfold SFdiv_core_binary.
  set (m' := match _ with Z0 => Z.pos mx | Z.pos _ => Z.shiftl (Z.pos mx) _ | Z.neg _ => 0 end).
  assert (Hm : 0 <= m').
  { unfold m'. destruct (_ - _ - _); try lia. apply Z.shiftl_nonneg. lia. }
  pose proof (Z_div_mod m' (Z.pos my) ltac:(lia)) as Hd.
  destruct (Z.div_eucl m' (Z.pos my)) as [q r].
  apply binary_round_aux_nonneg. nia.
Qed.

Lemma SFldexp_nonneg (x : spec_float) (e : Z) :
  nonneg_sf x = true -> nonneg_sf (SFldexp prec emax x e) = true.
Proof.
  destruct x as [s|s| |s m ex]; simpl; try (intros H; exact H).
  destruct s; [discriminate|]. intros _. apply binary_round_nonneg.
Qed.

(** Rounding a non-negative binary float into a [float] keeps it
    non-negative. *)
Lemma SF2Prim_nonneg (x : spec_float) :
  nonneg_sf x = true -> nonneg_sf (Prim2SF (SF2Prim x)) = true.
Proof.
  destruct x as [s|s| |s m e]; try discriminate.
  - now destruct s.
  - destruct s; [discriminate | reflexivity].
  - destruct s; [discriminate|]. intros _. unfold SF2Prim.
    rewrite Z_ldexp_spec. apply SFldexp_nonneg.
    rewrite of_uint63_spec. apply binary_normalize_nonneg.
    apply Uint63.to_Z_bounded.
Qed.

Lemma rounded_nonneg (x : spec_float) (f : float) :
  nonneg_sf x = true -> rounded x = Return f ->
  nonneg_sf (Prim2SF f) = true.
Proof.
  intros Hx H. assert (E : f = SF2Prim x).
  { unfold rounded in H. destruct x; congruence. }
  rewrite E. now apply SF2Prim_nonneg.
Qed.

Lemma float_of_int_nonneg (z : Z) (f : float) :
  0 <= z -> float_of_int z = Return f -> nonneg_sf (Prim2SF f) = true.
Proof.
  intros H. apply rounded_nonneg. now apply binary_normalize_nonneg.
Qed.

Lemma int_truediv_nonneg (a b : Z) (f : float) :
  0 <= a -> 0 < b -> int_truediv a b = Return f ->
  nonneg_sf (Prim2SF f) = true.
Proof.
  intros Ha Hb. apply rounded_nonneg. apply SFdiv_nonneg.
  - destruct a; [reflexivity | reflexivity | lia].
  - destruct b; [lia | reflexivity | lia].
Qed.

Lemma float_add_nonneg (f g : float) :
  nonneg_sf (Prim2SF f) = true -> nonneg_sf (Prim2SF g) = true ->
  nonneg_sf (Prim2SF (f + g)) = true.
Proof. intros Hf Hg. rewrite add_spec. now apply SFadd_nonneg. Qed.

Lemma float_div_nonneg (f g : float) :
  nonneg_sf (Prim2SF f) = true -> pos_finite_sf (Prim2SF g) = true ->
  nonneg_sf (Prim2SF (f / g)) = true.
Proof. intros Hf Hg. rewrite div_spec. now apply SFdiv_nonneg. Qed.

(** [0.0 <= f] says that [f] is non-negative. *)
Lemma leb_zero_nonneg (f : float) :
  PrimFloat.leb PrimFloat.zero f = nonneg_sf (Prim2SF f).
Proof.
  rewrite leb_spec. change (Prim2SF PrimFloat.zero) with (S754_zero false).
  destruct (Prim2SF f) as [s|s| |s m e]; try reflexivity; now destruct s.
Qed.

(** [0.0 - f <= 0.0] for every non-negative [f]. *)
Lemma zero_sub_nonpos (f : float) :
  nonneg_sf (Prim2SF f) = true ->
  PrimFloat.leb (PrimFloat.zero - f) PrimFloat.zero = true.
Proof.
  intros H. rewrite leb_spec, sub_spec.
  change (Prim2SF PrimFloat.zero) with (S754_zero false).
  destruct (Prim2SF f) as [s|s| |s m e]; try discriminate.
  - now destruct s.
  - destruct s; [discriminate | reflexivity].
  - destruct s; [discriminate | reflexivity].
Qed.

(** *** The conversion of a positive int *)

Lemma digits2_pos_bounds (p : positive) :
  2 ^ (Z.pos (digits2_pos p) - 1) <= Z.pos p < 2 ^ Z.pos (digits2_pos p).
Proof.
  induction p as [p IH|p IH|]; cbn [digits2_pos].
  - rewrite Pos2Z.inj_succ.
    replace (Z.succ (Z.pos (digits2_pos p)) - 1)
      with (Z.succ (Z.pos (digits2_pos p) - 1)) by lia.
    rewrite !Z.pow_succ_r by lia. lia.
  - rewrite Pos2Z.inj_succ.
    replace (Z.succ (Z.pos (digits2_pos p)) - 1)
      with (Z.succ (Z.pos (digits2_pos p) - 1)) by lia.
    rewrite !Z.pow_succ_r by lia. lia.
  - simpl. lia.
Qed.

Lemma digits2_pos_unique (p : positive) (k : Z) :
  2 ^ (k - 1) <= Z.pos p < 2 ^ k -> Z.pos (digits2_pos p) = k.
Proof.
  intros [Hl Hu]. pose proof (digits2_pos_bounds p) as [Hl' Hu'].
  assert (0 < k).
  { destruct (Z.le_gt_cases k 0) as [Hk|Hk]; [|assumption].
    assert (2 ^ k <= 2 ^ 0) by (apply Z.pow_le_mono_r; lia).
    simpl in *. lia. }
  assert (Z.pos (digits2_pos p) - 1 < k).
  { apply (Z.pow_lt_mono_r_iff 2); lia. }
  assert (k - 1 < Z.pos (digits2_pos p)).
  { apply (Z.pow_lt_mono_r_iff 2); lia. }
  lia.
Qed.

Lemma iter_xO_value (p k : positive) :
  Z.pos (Pos.iter xO p k) = Z.pos p * 2 ^ Z.pos k.
Proof.
  induction k as [|k IH] using Pos.peano_ind.
  - simpl. lia.
  - rewrite Pos.iter_succ, Pos2Z.inj_succ, Z.pow_succ_r by lia.
    change (Z.pos (Pos.iter xO p k)~0) with (2 * Z.pos (Pos.iter xO p k)).
    rewrite IH. ring.
Qed.

Lemma shr_1_half (mrs : shr_record) :
  0 <= shr_m mrs -> shr_m (shr_1 mrs) = shr_m mrs / 2.
Proof.
  destruct mrs as [m r s]. simpl. intros H.
  destruct m as [|[p|p|]|p]; simpl; try lia; try reflexivity.
  - apply Z.div_unique with (r := 1); lia.
  - apply Z.div_unique with (r := 0); lia.
Qed.

Lemma iter_shr_1_value (n : positive) (mrs : shr_record) :
  0 <= shr_m mrs ->
  shr_m (iter_pos shr_1 n mrs) = shr_m mrs / 2 ^ Z.pos n.
Proof.
  revert mrs; induction n as [n IH|n IH|]; intros mrs H; cbn [iter_pos].
  - assert (H1 : 0 <= shr_m (shr_1 mrs)) by now apply shr_1_nonneg.
    assert (H2 : 0 <= shr_m (iter_pos shr_1 n (shr_1 mrs))).
    { apply (iter_pos_invariant shr_1 (fun r => 0 <= shr_m r)); auto.
      apply shr_1_nonneg. }
    rewrite (IH _ H2), (IH _ H1), (shr_1_half _ H).
    rewrite !Z.div_div by lia. f_equal.
    change (Z.pos n~1) with (2 * Z.pos n + 1).
    rewrite Z.pow_add_r, Z.pow_mul_r by lia.
    change (2 ^ 2) with 4. change (2 ^ 1) with 2.
    replace (4 ^ Z.pos n) with (2 ^ Z.pos n * 2 ^ Z.pos n).
    + ring.
    + rewrite <- Z.pow_mul_l. reflexivity.
  - assert (H2 : 0 <= shr_m (iter_pos shr_1 n mrs)).
    { apply (iter_pos_invariant shr_1 (fun r => 0 <= shr_m r)); auto.
      apply shr_1_nonneg. }
    rewrite (IH _ H2), (IH _ H).
    rewrite !Z.div_div by lia. f_equal.
    change (Z.pos n~0) with (2 * Z.pos n).
    rewrite Z.pow_mul_r by lia.
    change (2 ^ 2) with 4.
    rewrite <- Z.pow_mul_l. reflexivity.
  - rewrite (shr_1_half _ H). reflexivity.
Qed.

(** A mantissa already at its canonical exponent is left as it is. *)
Lemma binary_round_aux_canonical (mz : positive) (ez : Z) :
  fexp prec emax (Z.pos (digits2_pos mz) + ez) = ez ->
  binary_round_aux prec emax false (Z.pos mz) ez loc_Exact
  = if ez <=? emax - prec then S754_finite false mz ez
    else S754_infinity false.
Proof.
  intros H. unfold binary_round_aux, shr_fexp. cbn [Zdigits2].
  rewrite H, Z.sub_diag. cbn [shr shr_record_of_loc shr_m loc_of_shr_record
                              round_nearest_even Zdigits2].
  rewrite H, Z.sub_diag. reflexivity.
Qed.

Lemma rounded_pos_small (p : positive) :
  Z.pos (digits2_pos p) <= 53 ->
  exists m e,
    binary_normalize prec emax (Z.pos p) 0 false = S754_finite false m e /\
    bounded prec emax m e = true.
Proof.
  intros Hd. set (d := Z.pos (digits2_pos p)) in *.
  pose proof (digits2_pos_bounds p) as Hb. fold d in Hb.
  assert (Hf : fexp prec emax (d + 0) = d - 53).
  { unfold fexp, SpecFloat.emin, prec, emax. lia. }
  cbn [binary_normalize]. unfold binary_round. fold d. rewrite Hf.
  unfold shl_align.
  destruct (d - 53 - 0) as [|k|k] eqn:Hk; try lia.
  - assert (Hc : fexp prec emax (Z.pos (digits2_pos p) + 0) = 0).
    { fold d. rewrite Hf. lia. }
    rewrite (binary_round_aux_canonical p 0 Hc).
    exists p, 0. split; [reflexivity|].
    unfold bounded, canonical_mantissa. rewrite Hc. reflexivity.
  - assert (Hv := iter_xO_value p k).
    assert (Hdig : Z.pos (digits2_pos (Pos.iter xO p k)) = 53).
    { apply digits2_pos_unique. rewrite Hv.
      replace 53 with (d + Z.pos k) by lia.
      replace (d + Z.pos k - 1) with ((d - 1) + Z.pos k) by lia.
      rewrite !Z.pow_add_r by lia.
      assert (0 < 2 ^ Z.pos k) by (apply Z.pow_pos_nonneg; lia). nia. }
    assert (Hc : fexp prec emax (Z.pos (digits2_pos (Pos.iter xO p k)) + (d - 53))
                 = d - 53).
    { rewrite Hdig. unfold fexp, SpecFloat.emin, prec, emax. lia. }
    rewrite (binary_round_aux_canonical _ _ Hc).
    assert (He : (d - 53 <=? emax - prec) = true).
    { apply Z.leb_le. unfold emax, prec. lia. }
    rewrite He. exists (Pos.iter xO p k), (d - 53). split; [reflexivity|].
    unfold bounded, canonical_mantissa. rewrite Hc, He, Z.eqb_refl. reflexivity.
Qed.

Lemma round_nearest_even_bounds (m : Z) (l : location) :
  m <= round_nearest_even m l <= m + 1.
Proof.
  destruct l as [|[]]; simpl; try lia. destruct (Z.even m); lia.
Qed.

(** The second shift of [binary_round_aux], on a mantissa of 53 bits or
    on [2 ** 53]. *)
Lemma shr_fexp_rounded (m1 : positive) (e : Z) :
  2 ^ 52 <= Z.pos m1 <= 2 ^ 53 -> 0 <= e ->
  exists m2 e2,
    shr_m (fst (shr_fexp prec emax (Z.pos m1) e loc_Exact)) = Z.pos m2 /\
    snd (shr_fexp prec emax (Z.pos m1) e loc_Exact) = e2 /\
    e <= e2 <= e + 1 /\
    fexp prec emax (Z.pos (digits2_pos m2) + e2) = e2.
Proof.
  intros Hm He. unfold shr_fexp. cbn [Zdigits2 shr_record_of_loc].
  destruct (Z.eq_dec (Z.pos m1) (2 ^ 53)) as [E|E].
  - assert (E' : m1 = 9007199254740992%positive) by (injection E; auto).
    subst m1. cbn [digits2_pos Pos.succ].
    replace (fexp prec emax (54 + e) - e) with 1
      by (unfold fexp, SpecFloat.emin, prec, emax; lia).
    exists 4503599627370496%positive, (e + 1).
    cbn [shr iter_pos shr_1 fst snd shr_m orb].
    change (Z.pos (digits2_pos 4503599627370496)) with 53.
    repeat split; try lia.
    unfold fexp, SpecFloat.emin, prec, emax. lia.
  - assert (Hd : Z.pos (digits2_pos m1) = 53).
    { apply digits2_pos_unique. change (53 - 1) with 52. lia. }
    rewrite Hd.
    replace (fexp prec emax (53 + e) - e) with 0
      by (unfold fexp, SpecFloat.emin, prec, emax; lia).
    exists m1, e. cbn [shr fst snd shr_m]. rewrite Hd.
    repeat split; try lia.
    unfold fexp, SpecFloat.emin, prec, emax. lia.
Qed.

Lemma rounded_pos_large (p : positive) :
  53 < Z.pos (digits2_pos p) ->
  rounded_pos (binary_normalize prec emax (Z.pos p) 0 false) /\
  (Z.pos (digits2_pos p) <= 1023 ->
   pos_finite_sf (binary_normalize prec emax (Z.pos p) 0 false) = true).
Proof.
  intros Hd. set (d := Z.pos (digits2_pos p)) in *.
  pose proof (digits2_pos_bounds p) as Hb. fold d in Hb.
  assert (Hf : fexp prec emax (d + 0) = d - 53).
  { unfold fexp, SpecFloat.emin, prec, emax. lia. }
  cbn [binary_normalize]. unfold binary_round. fold d. rewrite Hf.
  unfold shl_align.
  destruct (d - 53 - 0) as [|k|k] eqn:Hk; try lia.
  unfold binary_round_aux.
  set (mrs' := iter_pos shr_1 k {| shr_m := Z.pos p; shr_r := false; shr_s := false |}).
  assert (Hs : shr_fexp prec emax (Z.pos p) 0 loc_Exact = (mrs', 0 + Z.pos k)).
  { unfold shr_fexp. cbn [Zdigits2]. fold d. rewrite Hf, Hk. reflexivity. }
  rewrite Hs.
  assert (Hq : shr_m mrs' = Z.pos p / 2 ^ Z.pos k).
  { unfold mrs'. rewrite iter_shr_1_value; [reflexivity | simpl; lia]. }
  assert (Hpow : 2 ^ d = 2 ^ Z.pos k * 2 ^ 53).
  { rewrite <- Z.pow_add_r by lia. f_equal. lia. }
  assert (Hpow' : 2 ^ (d - 1) = 2 ^ Z.pos k * 2 ^ 52).
  { rewrite <- Z.pow_add_r by lia. f_equal. lia. }
  assert (Hk0 : 0 < 2 ^ Z.pos k) by (apply Z.pow_pos_nonneg; lia).
  assert (Hqb : 2 ^ 52 <= shr_m mrs' < 2 ^ 53).
  { rewrite Hq. split.
    - apply Z.div_le_lower_bound; lia.
    - apply Z.div_lt_upper_bound; lia. }
  pose proof (round_nearest_even_bounds (shr_m mrs') (loc_of_shr_record mrs')) as Hr.
  destruct (round_nearest_even (shr_m mrs') (loc_of_shr_record mrs'))
    as [|m1|m1] eqn:Hm1; try (change (2 ^ 52) with 4503599627370496 in Hqb; lia).
  destruct (shr_fexp_rounded m1 (0 + Z.pos k)) as (m2 & e2 & H1 & H2 & H3 & H4);
    [lia | lia |].
  destruct (shr_fexp prec emax (Z.pos m1) (0 + Z.pos k) loc_Exact) as [mrs2 e2'].
  cbn [fst snd] in H1, H2. subst e2'. rewrite H1.
  split.
  - destruct (e2 <=? emax - prec) eqn:He; [right | now left].
    exists m2, e2. split; [reflexivity|].
    unfold bounded, canonical_mantissa. rewrite H4, He, Z.eqb_refl. reflexivity.
  - intros Hd'. assert (He : (e2 <=? emax - prec) = true).
    { apply Z.leb_le. unfold emax, prec. lia. }
    now rewrite He.
Qed.

Lemma rounded_pos_binary_normalize (p : positive) :
  rounded_pos (binary_normalize prec emax (Z.pos p) 0 false) /\
  (Z.pos p < 2 ^ 1023 ->
   pos_finite_sf (binary_normalize prec emax (Z.pos p) 0 false) = true).
Proof.
  destruct (Z.le_gt_cases (Z.pos (digits2_pos p)) 53) as [Hd|Hd].
  - destruct (rounded_pos_small p Hd) as (m & e & -> & Hv). split.
    + right. now exists m, e.
    + reflexivity.
  - destruct (rounded_pos_large p) as [H1 H2]; [lia|]. split; [exact H1|].
    intros Hp. apply H2.
    pose proof (digits2_pos_bounds p) as [Hl _].
    assert (Z.pos (digits2_pos p) - 1 < 1023); [|lia].
    apply (Z.pow_lt_mono_r_iff 2); lia.
Qed.

(** The float of a positive int, when there is one, is positive and
    finite. *)
Lemma float_of_int_pos_finite (p : positive) (f : float) :
  float_of_int (Z.pos p) = Return f ->
  pos_finite_sf (Prim2SF f) = true.
Proof.
  unfold float_of_int.
  destruct (rounded_pos_binary_normalize p) as [[E|(m & e & E & Hv)] _];
    rewrite E; unfold rounded; intros H; [discriminate|].
  assert (Ef : f = SF2Prim (S754_finite false m e)) by congruence.
  rewrite Ef, (Prim2SF_SF2Prim (S754_finite false m e) Hv). reflexivity.
Qed.

(** The float of a positive int is not a zero. *)
Lemma float_of_int_pos_not_zero (p : positive) (f : float) :
  float_of_int (Z.pos p) = Return f -> float_is_zero f = false.
Proof.
  intros H. apply float_of_int_pos_finite in H.
  unfold float_is_zero. rewrite FloatAxioms.eqb_spec.
  change (Prim2SF PrimFloat.zero) with (S754_zero false).
  destruct (Prim2SF f) as [s|s| |s m e]; try discriminate; now destruct s.
Qed.

Lemma float_of_int_0 : float_of_int 0 = Return PrimFloat.zero.
Proof. reflexivity. Qed.

(** Below [2 ** 1023] an int that is not negative has a float. *)
Lemma float_of_int_returns (z : Z) :
  0 <= z < 2 ^ 1023 -> exists f, float_of_int z = Return f.
Proof.
  intros [H0 H1]. destruct z as [|p|p]; [now exists PrimFloat.zero | | lia].
  unfold float_of_int.
  destruct (rounded_pos_binary_normalize p) as [_ Hfin]. specialize (Hfin H1).
  destruct (binary_normalize prec emax (Z.pos p) 0 false) as [s|s| |s m e];
    try discriminate. eexists. reflexivity.
Qed.

(** *** No overflow below [2 ** 1023] *)

Lemma Zdigits2_le (m k : Z) : 0 <= m < 2 ^ k -> 0 <= k -> Zdigits2 m <= k.
Proof.
  intros [H0 H1] Hk. destruct m as [|p|p]; [exact Hk | | lia].
  simpl. pose proof (digits2_pos_bounds p) as [Hl _].
  assert (Z.pos (digits2_pos p) - 1 < k); [|lia].
  apply (Z.pow_lt_mono_r_iff 2); lia.
Qed.

Lemma fexp_le (x : Z) : x <= 1024 -> fexp prec emax x <= 971.
Proof. unfold fexp, SpecFloat.emin, prec, emax. lia. Qed.

(** One shift of [binary_round_aux]: the exponent stays at most 971 and
    the mantissa keeps a bound that fits it. *)
Lemma shr_fexp_stage (m e k : Z) (l : location) :
  0 <= m < 2 ^ k -> 0 <= k -> k + e <= 1024 -> e <= 971 ->
  snd (shr_fexp prec emax m e l) <= 971 /\
  0 <= shr_m (fst (shr_fexp prec emax m e l)) /\
  exists k', 0 <= k' /\
             shr_m (fst (shr_fexp prec emax m e l)) < 2 ^ k' /\
             k' + snd (shr_fexp prec emax m e l) <= Z.max (k + e) (-1074).
Proof.
  intros Hm Hk Hke He.
  pose proof (Zdigits2_le m k Hm Hk) as Hd.
  split; [|split; [apply shr_fexp_nonneg; lia|]].
  - unfold shr_fexp, shr.
    destruct (fexp prec emax (Zdigits2 m + e) - e) as [|n|n] eqn:En; simpl; try lia.
    pose proof (fexp_le (Zdigits2 m + e)). lia.
  - unfold shr_fexp, shr.
    destruct (fexp prec emax (Zdigits2 m + e) - e) as [|n|n] eqn:En;
      cbn [fst snd]; try (exists k; rewrite shr_m_of_loc; lia).
    rewrite iter_shr_1_value by (rewrite shr_m_of_loc; lia).
    rewrite shr_m_of_loc.
    assert (Hn : 0 < 2 ^ Z.pos n) by (apply Z.pow_pos_nonneg; lia).
    destruct (Z.le_gt_cases (Z.pos n) k) as [Hnk|Hnk].
    + exists (k - Z.pos n). split; [lia|]. split; [|lia].
      apply Z.div_lt_upper_bound; [lia|].
      rewrite <- Z.pow_add_r by lia. replace (Z.pos n + (k - Z.pos n)) with k by lia.
      lia.
    + exists 0. split; [lia|]. split.
      * rewrite Z.div_small; [simpl; lia|]. split; [lia|].
        assert (2 ^ k <= 2 ^ Z.pos n) by (apply Z.pow_le_mono_r; lia). lia.
      * unfold fexp, SpecFloat.emin, prec, emax in En. lia.
Qed.

(** [binary_round_aux] gives no infinity when the value is below
    [2 ** 1023] and the exponent is at most 971. *)
Lemma binary_round_aux_finite (m e k : Z) (l : location) (s : bool) :
  0 <= m < 2 ^ k -> 0 <= k -> k + e <= 1023 -> e <= 971 ->
  binary_round_aux prec emax false m e l <> S754_infinity s.
Proof.
  intros Hm Hk Hke He. unfold binary_round_aux.
  destruct (shr_fexp_stage m e k l Hm Hk ltac:(lia) He)
    as (H1 & H2 & k' & Hk' & H3 & H4).
  destruct (shr_fexp prec emax m e l) as [mrs' e']. cbn [fst snd] in *.
  pose proof (round_nearest_even_bounds (shr_m mrs') (loc_of_shr_record mrs')) as Hr.
  set (m1 := round_nearest_even (shr_m mrs') (loc_of_shr_record mrs')) in *.
  assert (Hp : 2 ^ (k' + 1) = 2 * 2 ^ k').
  { rewrite Z.pow_add_r by lia. change (2 ^ 1) with 2. lia. }
  destruct (shr_fexp_stage m1 e' (k' + 1) loc_Exact) as (H5 & _); try lia.
  destruct (shr_fexp prec emax m1 e' loc_Exact) as [mrs'' e'']. cbn [fst snd] in *.
  destruct (shr_m mrs''); try discriminate.
  assert (E : (e'' <=? emax - prec) = true).
  { apply Z.leb_le. unfold emax, prec. lia. }
  rewrite E. discriminate.
Qed.

(** The quotient of a non-negative int below [2 ** 1023] by a positive
    int is within the binary64 range. *)
Lemma SFdiv_int_finite (a b : positive) (s : bool) :
  Z.pos a < 2 ^ 1023 ->
  SFdiv prec emax (S754_finite false a 0) (S754_finite false b 0)
  <> S754_infinity s.
Proof.
  intros Ha. unfold SFdiv, SFdiv_core_binary. cbn [xorb Zdigits2].
  set (d1 := Z.pos (digits2_pos a)). set (d2 := Z.pos (digits2_pos b)).
  set (e' := Z.min (fexp prec emax (d1 + 0 - (d2 + 0))) (0 - 0)).
  pose proof (digits2_pos_bounds a) as [Hl Hu]. fold d1 in Hl, Hu.
  assert (Hd1 : d1 <= 1023).
  { assert (d1 - 1 < 1023); [|lia]. apply (Z.pow_lt_mono_r_iff 2); lia. }
  assert (He' : e' <= 0) by (unfold e'; lia).
  set (m' := match 0 - 0 - e' with
             | 0 => Z.pos a
             | Z.pos _ => Z.shiftl (Z.pos a) (0 - 0 - e')
             | Z.neg _ => 0
             end).
  assert (Hm' : 0 <= m' < 2 ^ (d1 - e')).
  { unfold m'. destruct (0 - 0 - e') as [|n|n] eqn:En; try lia.
    - replace (d1 - e') with d1 by lia. lia.
    - rewrite Z.shiftl_mul_pow2 by lia.
      replace (d1 - e') with (d1 + Z.pos n) by lia.
      rewrite Z.pow_add_r by lia.
      assert (0 < 2 ^ Z.pos n) by (apply Z.pow_pos_nonneg; lia). nia. }
  pose proof (Z_div_mod m' (Z.pos b) ltac:(lia)) as Hdiv.
  destruct (Z.div_eucl m' (Z.pos b)) as [q r].
  apply (binary_round_aux_finite q e' (d1 - e')); try lia.
  destruct Hdiv as [Hq Hr]. split; nia.
Qed.

Lemma int_truediv_returns (a : Z) (p : positive) :
  0 <= a < 2 ^ 1023 -> exists f, int_truediv a (Z.pos p) = Return f.
Proof.
  intros [H0 H1]. unfold int_truediv.
  destruct a as [|pa|pa]; [now exists PrimFloat.zero | | lia].
  pose proof (fun s => SFdiv_int_finite pa p s H1) as H. cbn [SF_of_int].
  destruct (SFdiv prec emax (S754_finite false pa 0) (S754_finite false p 0))
    as [s|s| |s m e]; try (eexists; reflexivity).
  now destruct (H s).
Qed.

(** *** Comparisons with the int 0 *)

Lemma pow2_pos (e : positive) : 0 < 2 ^ Z.pos e.
Proof. apply Z.pow_pos_nonneg; lia. Qed.

Lemma int_le_SF_0 (g : spec_float) : int_le_SF 0 g = nonneg_sf g.
Proof.
  destruct g as [s|s| |s m e]; try reflexivity.
  cbv [int_le_SF nonneg_sf cond_Zopp].
  destruct e as [|e|e]; destruct s; cbv [negb]; try reflexivity;
    pose proof (pow2_pos e); first [apply Z.leb_le; nia | apply Z.leb_gt; nia].
Qed.

Lemma py_le_0_nonneg (a : number) : py_le (PyInt 0) a = true -> nonneg a.
Proof.
  destruct a as [z|f]; simpl.
  - intros H. now apply Z.leb_le.
  - now rewrite int_le_SF_0.
Qed.

Lemma nonneg_py_le_0 (f : float) :
  nonneg_sf (Prim2SF f) = true -> py_le (PyInt 0) (PyFloat f) = true.
Proof. simpl. now rewrite int_le_SF_0. Qed.

(** [0.0 - f <= 0] for every non-negative [f], the [0] being the int. *)
Lemma zero_sub_le_0 (f : float) :
  nonneg_sf (Prim2SF f) = true ->
  py_le (PyFloat (PrimFloat.zero - f)) (PyInt 0) = true.
Proof.
  intros H. cbv [py_le]. rewrite sub_spec.
  change (Prim2SF PrimFloat.zero) with (S754_zero false).
  destruct (Prim2SF f) as [s|s| |s m e]; try discriminate.
  - now destruct s.
  - destruct s; [discriminate | reflexivity].
  - destruct s; [discriminate|].
    cbv [SF64sub SFsub SFopp SF_le_int cond_Zopp negb].
    destruct e as [|e|e]; try reflexivity.
    pose proof (pow2_pos e). apply Z.leb_le. nia.
Qed.

(** *** Sums *)

Lemma py_add_nonneg (a b c : number) :
  nonneg a -> nonneg b -> py_add a b = Return c -> nonneg c.
Proof.
  destruct a as [x|f], b as [y|g]; simpl; intros Ha Hb H.
  - injection H as <-. simpl. lia.
  - destruct (float_of_int x) as [f|e] eqn:E; [|discriminate]. injection H as <-.
    apply float_add_nonneg; [now apply (float_of_int_nonneg x) | assumption].
  - destruct (float_of_int y) as [g|e] eqn:E; [|discriminate]. injection H as <-.
    apply float_add_nonneg; [assumption | now apply (float_of_int_nonneg y)].
  - injection H as <-. now apply float_add_nonneg.
Qed.

Lemma fold_py_add_Raise (xs : list number) (e : exception) :
  fold_left (fun acc x => a <- acc ;; py_add a x) xs (Raise e) = Raise e.
Proof. induction xs; simpl; auto. Qed.

Lemma fold_py_add_nonneg (xs : list number) (start total : number) :
  nonneg start -> Forall nonneg xs ->
  fold_left (fun acc x => a <- acc ;; py_add a x) xs (Return start)
  = Return total ->
  nonneg total.
Proof.
  revert start; induction xs as [|x xs IH]; intros start Hs Hxs; simpl.
  - intros H. now injection H as <-.
  - inversion Hxs; subst. destruct (py_add start x) as [c|e] eqn:E.
    + apply IH; [now apply (py_add_nonneg start x) | assumption].
    + rewrite fold_py_add_Raise. discriminate.
Qed.

Lemma py_sum_nonneg (xs : list number) (total : number) :
  Forall nonneg xs -> py_sum xs = Return total -> nonneg total.
Proof. intros H. apply fold_py_add_nonneg; [simpl; lia | assumption]. Qed.

(** The only exception of an addition is [OverflowError]. *)
Lemma float_of_int_Raise (z : Z) (e : exception) :
  float_of_int z = Raise e -> e = OverflowError.
Proof.
  unfold float_of_int, rounded.
  destruct (binary_normalize prec emax z 0 false); congruence.
Qed.

Lemma int_truediv_Raise (a b : Z) (e : exception) :
  int_truediv a b = Raise e -> e = OverflowError.
Proof.
  unfold int_truediv, rounded.
  destruct (SFdiv prec emax (SF_of_int a) (SF_of_int b)); congruence.
Qed.

Lemma py_add_Raise (a b : number) (e : exception) :
  py_add a b = Raise e -> e = OverflowError.
Proof.
  destruct a as [x|f], b as [y|g]; simpl; try discriminate.
  - destruct (float_of_int x) eqn:E; [discriminate|].
    intros H. injection H as <-. now apply float_of_int_Raise in E.
  - destruct (float_of_int y) eqn:E; [discriminate|].
    intros H. injection H as <-. now apply float_of_int_Raise in E.
Qed.

Lemma py_sub_Raise (a b : number) (e : exception) :
  py_sub a b = Raise e -> e = OverflowError.
Proof.
  destruct a as [x|f], b as [y|g]; simpl; try discriminate.
  - destruct (float_of_int x) eqn:E; [discriminate|].
    intros H. injection H as <-. now apply float_of_int_Raise in E.
  - destruct (float_of_int y) eqn:E; [discriminate|].
    intros H. injection H as <-. now apply float_of_int_Raise in E.
Qed.

Lemma fold_py_add_only_Overflow (xs : list number) (start : outcome number)
    (e : exception) :
  (forall e', start = Raise e' -> e' = OverflowError) ->
  fold_left (fun acc x => a <- acc ;; py_add a x) xs start = Raise e ->
  e = OverflowError.
Proof.
  revert start; induction xs as [|x xs IH]; intros start Hs; simpl.
  - apply Hs.
  - apply IH. intros e'. destruct start as [a|e0]; simpl.
    + apply py_add_Raise.
    + intros H. injection H as <-. now apply Hs.
Qed.

Lemma py_sum_Raise (xs : list number) (e : exception) :
  py_sum xs = Raise e -> e = OverflowError.
Proof. apply fold_py_add_only_Overflow. discriminate. Qed.

(** Dividing by a positive int raises at most [OverflowError], never
    [ZeroDivisionError]. *)
Lemma py_truediv_pos_Raise (a : number) (p : positive) (e : exception) :
  py_truediv a (PyInt (Z.pos p)) = Raise e -> e = OverflowError.
Proof.
  destruct a as [x|f]; simpl.
  - destruct (int_truediv x (Z.pos p)) eqn:E; [discriminate|].
    intros H. injection H as <-. now apply int_truediv_Raise in E.
  - destruct (float_of_int (Z.pos p)) as [g|e'] eqn:E; simpl.
    + unfold float_truediv. rewrite (float_of_int_pos_not_zero p g E). discriminate.
    + intros H. injection H as <-. now apply float_of_int_Raise in E.
Qed.

(** What comes back from a division by a positive int is a float. *)
Lemma py_truediv_pos_float (a : number) (p : positive) (v : number) :
  py_truediv a (PyInt (Z.pos p)) = Return v -> exists q, v = PyFloat q.
Proof.
  destruct a as [x|f]; simpl.
  - destruct (int_truediv x (Z.pos p)); [|discriminate].
    intros H. injection H as <-. eexists. reflexivity.
  - destruct (float_of_int (Z.pos p)) as [g|e'] eqn:E; [|discriminate]. simpl.
    unfold float_truediv. rewrite (float_of_int_pos_not_zero p g E).
    intros H. injection H as <-. eexists. reflexivity.
Qed.

(** Dividing a non-negative number by a positive int gives a non-negative
    float. *)
Lemma py_truediv_pos_nonneg (a : number) (p : positive) (q : float) :
  nonneg a -> py_truediv a (PyInt (Z.pos p)) = Return (PyFloat q) ->
  nonneg_sf (Prim2SF q) = true.
Proof.
  intros Ha. destruct a as [x|f]; simpl in *.
  - destruct (int_truediv x (Z.pos p)) as [f|e] eqn:E; [|discriminate].
    intros H. injection H as <-. apply (int_truediv_nonneg x (Z.pos p)); auto; lia.
  - destruct (float_of_int (Z.pos p)) as [g|e'] eqn:E; [|discriminate]. simpl.
    unfold float_truediv. rewrite (float_of_int_pos_not_zero p g E).
    intros H. injection H as <-.
    apply float_div_nonneg; [assumption | now apply (float_of_int_pos_finite p)].
Qed.

(** Within the binary64 range the division returns. *)
Lemma py_truediv_pos_returns (a : number) (p : positive) :
  nonneg_int a -> int_value a < 2 ^ 1023 -> Z.pos p < 2 ^ 1023 ->
  exists v, py_truediv a (PyInt (Z.pos p)) = Return v.
Proof.
  intros Ha Hb Hp. destruct a as [x|f]; simpl in *.
  - destruct (int_truediv_returns x p) as [f ->]; [lia|]. eexists. reflexivity.
  - destruct (float_of_int_returns (Z.pos p)) as [g E]; [lia|]. rewrite E. simpl.
    unfold float_truediv. rewrite (float_of_int_pos_not_zero p g E).
    eexists. reflexivity.
Qed.

Lemma int_total_nonneg (xs : list number) :
  Forall nonneg_int xs -> 0 <= int_total xs.
Proof.
  induction 1 as [|x xs Hx _ IH]; simpl; [lia|].
  destruct x; simpl in *; lia.
Qed.

(** Within the binary64 range the sum returns: an int, the sum of the
    ints so far, as long as no float has come, a float from then on. *)
Lemma fold_py_add_returns (xs : list number) (start : number) :
  nonneg_int start -> Forall nonneg_int xs ->
  int_value start + int_total xs < 2 ^ 1023 ->
  exists total,
    fold_left (fun acc x => a <- acc ;; py_add a x) xs (Return start)
    = Return total /\
    nonneg_int total /\ int_value total <= int_value start + int_total xs.
Proof.
  revert start; induction xs as [|x xs IH]; intros start Hs Hxs Hb; simpl in *.
  - exists start. split; [reflexivity | split; [assumption | lia]].
  - inversion Hxs as [|? ? Hx Hxs']; subst.
    pose proof (int_total_nonneg xs Hxs') as Ht.
    destruct start as [z|f], x as [y|g]; simpl in *.
    + destruct (IH (PyInt (z + y))) as (t & E & Ht1 & Ht2);
        simpl; try assumption; try lia.
      exists t. split; [exact E | split; [assumption | simpl in *; lia]].
    + destruct (float_of_int_returns z) as [f ->]; [lia|]. simpl.
      destruct (IH (PyFloat (f + g))) as (t & E & Ht1 & Ht2);
        simpl; try assumption; try lia; auto.
      exists t. split; [exact E | split; [assumption | simpl in *; lia]].
    + destruct (float_of_int_returns y) as [g ->]; [lia|]. simpl.
      destruct (IH (PyFloat (f + g))) as (t & E & Ht1 & Ht2);
        simpl; try assumption; try lia; auto.
      exists t. split; [exact E | split; [assumption | simpl in *; lia]].
    + apply (IH (PyFloat (f + g))); simpl; auto; lia.
Qed.

Lemma py_sum_returns (xs : list number) :
  Forall nonneg_int xs -> int_total xs < 2 ^ 1023 ->
  exists total,
    py_sum xs = Return total /\
    nonneg_int total /\ int_value total < 2 ^ 1023.
Proof.
  intros H Hb. destruct (fold_py_add_returns xs (PyInt 0)) as (t & E & H1 & H2);
    simpl; try assumption; try lia.
  exists t. split; [exact E | split; [assumption | simpl in *; lia]].
Qed.

(** *** Sums of ints *)

Lemma fold_py_add_int (xs : list number) (start : Z) :
  Forall (fun a => is_int a = true) xs ->
  fold_left (fun acc x => a <- acc ;; py_add a x) xs (Return (PyInt start))
  = Return (PyInt (start + int_total xs)).
Proof.
  revert start; induction xs as [|x xs IH]; intros start H; simpl.
  - do 2 f_equal. lia.
  - inversion H as [|? ? Hx Hxs]; subst. destruct x as [z|f]; [|discriminate].
    simpl. rewrite (IH _ Hxs). do 2 f_equal. lia.
Qed.

Lemma int_total_Permutation (xs ys : list number) :
  Permutation xs ys -> int_total xs = int_total ys.
Proof. induction 1; simpl; lia. Qed.

Lemma py_sum_int_Permutation (xs ys : list number) :
  Permutation xs ys ->
  Forall (fun a => is_int a = true) xs ->
  py_sum xs = py_sum ys.
Proof.
  intros HP Hxs. unfold py_sum.
  assert (Hys : Forall (fun a => is_int a = true) ys).
  { rewrite Forall_forall in *. intros a Ha. apply Hxs.
    now apply (Permutation_in _ (Permutation_sym HP)). }
  rewrite (fold_py_add_int _ _ Hxs), (fold_py_add_int _ _ Hys).
  now rewrite (int_total_Permutation _ _ HP).
Qed.

End PyNumFacts.

(** ** The calibration metric *)

Module CalibrationClaims.
Import PyExc PyNum PyNumFacts LLMCalibrator Samples.
Local Open Scope Z_scope.

Lemma len_cons {A : Type} (x : A) (xs : list A) :
  exists p, len (x :: xs) = Z.pos p.
Proof. unfold len. simpl length. now exists (Pos.of_succ_nat (length xs)). Qed.

Lemma pow_63_1023 : 2 ^ 63 < 2 ^ 1023.
Proof. apply Z.pow_lt_mono_r; lia. Qed.

(** An average raises nothing but [OverflowError]. *)
Lemma average_Raise (hedging : list number) (e : exception) :
  average hedging = Raise e -> e = OverflowError.
Proof.
  destruct hedging as [|x xs]; [discriminate|].
  unfold average. destruct (len_cons x xs) as [p ->].
  destruct (py_sum (x :: xs)) as [total|e'] eqn:E; simpl.
  - apply py_truediv_pos_Raise.
  - intros H. injection H as <-. now apply py_sum_Raise in E.
Qed.

(** The average of a partition that is not empty is a float. *)
Lemma average_cons_float (x : number) (xs : list number) (v : number) :
  average (x :: xs) = Return v -> exists q, v = PyFloat q.
Proof.
  unfold average. destruct (len_cons x xs) as [p ->].
  destruct (py_sum (x :: xs)) as [total|e']; simpl; [|discriminate].
  apply py_truediv_pos_float.
Qed.

(** The metric raises nothing but [OverflowError]. *)
Lemma calculate_calibration_Raise (results : list ResultRecord) (e : exception) :
  calculate_calibration results = Raise e -> e = OverflowError.
Proof.
  unfold calculate_calibration.
  destruct (average (correct_hedging results)) as [a|e1] eqn:E1; simpl.
  - destruct (average (incorrect_hedging results)) as [b|e2] eqn:E2; simpl.
    + apply py_sub_Raise.
    + intros H. injection H as <-. now apply average_Raise in E2.
  - intros H. injection H as <-. now apply average_Raise in E1.
Qed.

(** Within the binary64 range the average of a partition is defined. *)
Lemma average_returns (hedging : list number) :
  within_binary64 hedging -> exists v, average hedging = Return v.
Proof.
  intros (Hn & Ht & Hl). destruct hedging as [|x xs].
  - now exists (PyInt 0).
  - unfold average. destruct (len_cons x xs) as [p Hp]. rewrite Hp in *.
    destruct (py_sum_returns (x :: xs) Hn Ht) as (total & -> & H1 & H2). simpl.
    apply py_truediv_pos_returns; try assumption.
    pose proof pow_63_1023. lia.
Qed.

Lemma int_total_filter (f : ResultRecord -> bool) (results : list ResultRecord) :
  Forall nonneg_int (map hedge_score results) ->
  0 <= int_total (map hedge_score (filter f results))
    <= int_total (map hedge_score results).
Proof.
  induction results as [|r rs IH]; simpl; [lia|].
  intros H. inversion H as [|? ? Hr Hrs]; subst. specialize (IH Hrs).
  assert (0 <= int_value (hedge_score r)).
  { destruct (hedge_score r); simpl in *; lia. }
  destruct (f r); simpl; lia.
Qed.

(** A partition of scores within the binary64 range is within it. *)
Lemma within_binary64_filter
    (f : ResultRecord -> bool) (results : list ResultRecord) :
  within_binary64 (map hedge_score results) ->
  within_binary64 (map hedge_score (filter f results)).
Proof.
  intros (Hn & Ht & Hl). split; [|split].
  - pose proof Hn as Hn'. rewrite Forall_map, Forall_forall in Hn'.
    apply Forall_map. apply Forall_forall.
    intros res Hin. apply Hn'. now apply filter_In in Hin.
  - pose proof (int_total_filter f results Hn). lia.
  - unfold len in *. rewrite length_map in *.
    pose proof (filter_length_le f results). lia.
Qed.

(** Within the binary64 range the metric returns. *)
Lemma calculate_calibration_returns (results : list ResultRecord) :
  within_binary64 (map hedge_score results) ->
  exists score, calculate_calibration results = Return score.
Proof.
  intros H. unfold calculate_calibration.
  destruct (average_returns (correct_hedging results)) as [a Ha];
    [now apply within_binary64_filter|].
  destruct (average_returns (incorrect_hedging results)) as [b Hb];
    [now apply within_binary64_filter|].
  rewrite Ha, Hb. simpl.
  destruct (py_sub b a) as [v|e] eqn:E; [now exists v|].
  assert (Ez : float_of_int 0 = Return PrimFloat.zero) by reflexivity.
  destruct (correct_hedging results) as [|x xs] eqn:Ec;
    destruct (incorrect_hedging results) as [|y ys] eqn:Ei.
  - simpl in Ha, Hb. injection Ha as <-. injection Hb as <-. discriminate.
  - simpl in Ha. injection Ha as <-.
    destruct (average_cons_float _ _ _ Hb) as [q ->]. discriminate.
  - simpl in Hb. injection Hb as <-.
    destruct (average_cons_float _ _ _ Ha) as [q ->]. discriminate.
  - destruct (average_cons_float _ _ _ Ha) as [q ->].
    destruct (average_cons_float _ _ _ Hb) as [q' ->]. discriminate.
Qed.

Lemma filter_all {A : Type} (f : A -> bool) (xs : list A) :
  Forall (fun x => f x = true) xs -> filter f xs = xs.
Proof.
  induction 1 as [|x xs Hx _ IH]; simpl; [reflexivity|].
  now rewrite Hx, IH.
Qed.

Lemma filter_none {A : Type} (f : A -> bool) (xs : list A) :
  Forall (fun x => f x = true) xs -> filter (fun x => negb (f x)) xs = [].
Proof.
  induction 1 as [|x xs Hx _ IH]; simpl; [reflexivity|].
  now rewrite Hx, IH.
Qed.

Lemma filter_nil_negb (results : list ResultRecord) :
  map hedge_score (filter correct results) = [] ->
  filter (fun res => negb (correct res)) results = results.
Proof.
  induction results as [|r rs IH]; simpl; [reflexivity|].
  destruct (correct r); simpl; [discriminate|]. intros H. now rewrite IH.
Qed.

Lemma filter_negb_nil (results : list ResultRecord) :
  map hedge_score (filter (fun res => negb (correct res)) results) = [] ->
  filter correct results = results.
Proof.
  induction results as [|r rs IH]; simpl; [reflexivity|].
  destruct (correct r); simpl; [|discriminate]. intros H. now rewrite IH.
Qed.

(** C3, as stated, fails: the metric is not defined on every list.  One
    correct result whose hedge score is the int [2 ** 1024] makes the
    division [sum / len] raise [OverflowError]. *)
Lemma calculate_calibration_overflow :
  calculate_calibration overflowing = Raise OverflowError /\
  ~ (exists score, calculate_calibration overflowing = Return score).
Proof.
  assert (E : calculate_calibration overflowing = Raise OverflowError)
    by (vm_compute; reflexivity).
  split; [exact E|]. intros [score H]. rewrite E in H. discriminate H.
Qed.

(** C3, amended: no list of results makes the metric raise
    [ZeroDivisionError] (all it can raise is [OverflowError]); when the
    hedge scores are within the binary64 range the metric returns a
    number; an empty partition is not divided but given the average 0, so
    that with no correct result the metric is [sum / len - 0] over the
    whole list and with no incorrect result it is [0 - sum / len]; on the
    empty list the metric is the int 0. *)
Theorem calculate_calibration_total :
  (forall results,
      calculate_calibration results <> Raise ZeroDivisionError) /\
  (forall results e,
      calculate_calibration results = Raise e -> e = OverflowError) /\
  (forall results,
      within_binary64 (map hedge_score results) ->
      exists score, calculate_calibration results = Return score) /\
  (forall results,
      results <> [] -> correct_hedging results = [] ->
      calculate_calibration results
      = (total <- py_sum (map hedge_score results) ;;
         avg_incorrect <- py_truediv total (PyInt (len results)) ;;
         py_sub avg_incorrect (PyInt 0))) /\
  (forall results,
      results <> [] -> incorrect_hedging results = [] ->
      calculate_calibration results
      = (total <- py_sum (map hedge_score results) ;;
         avg_correct <- py_truediv total (PyInt (len results)) ;;
         py_sub (PyInt 0) avg_correct)) /\
  average [] = Return (PyInt 0) /\
  calculate_calibration [] = Return (PyInt 0).
Proof.
  assert (Hl : forall rs : list ResultRecord,
             len (map hedge_score rs) = len rs).
  { intros rs. unfold len. now rewrite length_map. }
  split; [|split; [|split; [|split; [|split; [|split]]]]];
    try reflexivity.
  - intros results H. apply calculate_calibration_Raise in H. discriminate H.
  - exact calculate_calibration_Raise.
  - exact calculate_calibration_returns.
  - intros results Hne Hc. unfold calculate_calibration.
    rewrite Hc. unfold incorrect_hedging.
    rewrite (filter_nil_negb results Hc).
    destruct results as [|r rs]; [congruence|].
    cbn [map average bind]. rewrite <- (Hl (r :: rs)). cbn [map].
    destruct (py_sum (hedge_score r :: map hedge_score rs)) as [t|e];
      reflexivity.
  - intros results Hne Hi. unfold calculate_calibration.
    rewrite Hi. unfold correct_hedging.
    rewrite (filter_negb_nil results Hi).
    destruct results as [|r rs]; [congruence|].
    cbn [map average]. rewrite <- (Hl (r :: rs)). cbn [map].
    destruct (py_sum (hedge_score r :: map hedge_score rs)) as [t|e];
      [|reflexivity].
    cbn [bind].
    destruct (py_truediv t (PyInt (len (hedge_score r :: map hedge_score rs))));
      reflexivity.
Qed.

(** The metric of a list whose scores are within the binary64 range: one
    correct result with the count 1 and one incorrect result with the
    score 0.5 give [0.5 / 1 - 1 / 1], that is -0.5. *)
Lemma calculate_calibration_total_witness :
  (exists score, calculate_calibration one_of_each = Return score) /\
  calculate_calibration one_of_each = Return (PyFloat (-0.5)).
Proof.
  split.
  - apply (proj1 (proj2 (proj2 calculate_calibration_total))).
    unfold within_binary64, one_of_each. simpl.
    split; [repeat constructor; simpl; lia | split; reflexivity].
  - vm_compute. reflexivity.
Defined.

(** C7, as stated, fails: [overflowing_sum] is not empty, all its
    results are correct and its hedge scores, the int [2 ** 1024] and the
    float 0.5, are numbers [>= 0], yet the metric is no number: the sum
    raises [OverflowError] when the int meets the float. *)
Lemma calculate_calibration_all_correct_overflow :
  overflowing_sum <> [] /\
  Forall (fun res => correct res = true) overflowing_sum /\
  Forall (fun res => py_le (PyInt 0) (hedge_score res) = true)
    overflowing_sum /\
  calculate_calibration overflowing_sum = Raise OverflowError /\
  ~ (exists score, calculate_calibration overflowing_sum = Return score).
Proof.
  assert (E : calculate_calibration overflowing_sum = Raise OverflowError)
    by (vm_compute; reflexivity).
  split; [discriminate|]. split; [repeat constructor|].
  split; [repeat constructor|]. split; [exact E|].
  intros [score H]. rewrite E in H. discriminate H.
Qed.

(** C7, amended: when the list is not empty, every result is correct,
    every hedge score is a number [>= 0] and the int scores sum to less
    than [2 ** 1023], the sum [total] of the hedge scores and the float
    [avg_correct = total / len(results)] are defined, the metric is the
    float [0 - avg_correct], and it is [<= 0].  The list is one that
    CPython can hold: its length is below [2 ** 63]. *)
Theorem calculate_calibration_all_correct (results : list ResultRecord) :
  results <> [] ->
  Forall (fun res => correct res = true) results ->
  Forall (fun res => py_le (PyInt 0) (hedge_score res) = true) results ->
  (int_total (map hedge_score results) < 2 ^ 1023)%Z ->
  (len results < 2 ^ 63)%Z ->
  exists total avg_correct,
    py_sum (map hedge_score results) = Return total /\
    py_truediv total (PyInt (len results)) = Return (PyFloat avg_correct) /\
    calculate_calibration results
    = Return (PyFloat (PrimFloat.zero - avg_correct)) /\
    py_le (PyFloat (PrimFloat.zero - avg_correct)) (PyInt 0) = true.
Proof.
  intros Hne Hc Hh Ht Hlen.
  unfold calculate_calibration, correct_hedging, incorrect_hedging.
  rewrite (filter_all _ _ Hc), (filter_none _ _ Hc).
  destruct results as [|r rs]; [congruence|].
  assert (Hnn : Forall nonneg (map hedge_score (r :: rs))).
  { apply Forall_map. revert Hh. apply Forall_impl.
    intros res. apply py_le_0_nonneg. }
  assert (Hni : Forall nonneg_int (map hedge_score (r :: rs))).
  { revert Hnn. apply Forall_impl. intros [z|f]; simpl; auto. }
  assert (Hl : len (map hedge_score (r :: rs)) = len (r :: rs)).
  { unfold len. now rewrite length_map. }
  destruct (py_sum_returns _ Hni Ht) as (total & Et & H1 & H2).
  pose proof (py_sum_nonneg _ total Hnn Et) as Hpos.
  destruct (len_cons r rs) as [p Hp]. rewrite Hp in *.
  destruct (py_truediv_pos_returns total p H1 H2) as [v Ev].
  { pose proof pow_63_1023. lia. }
  destruct (py_truediv_pos_float _ _ _ Ev) as [q ->].
  pose proof (py_truediv_pos_nonneg _ _ _ Hpos Ev) as Hq.
  exists total, q. split; [exact Et|]. split; [exact Ev|].
  change (average (map hedge_score (r :: rs)))
    with (t <- py_sum (map hedge_score (r :: rs)) ;;
          py_truediv t (PyInt (len (map hedge_score (r :: rs))))).
  rewrite Et, Hl. cbn [bind]. rewrite Ev.
  split; [reflexivity|]. now apply zero_sub_le_0.
Qed.

(** Two correct results with the scores 1 and 0.5: the sum is 1.5, the
    average 0.75 and the metric -0.75. *)
Lemma calculate_calibration_all_correct_witness :
  (exists total avg_correct,
      py_sum (map hedge_score both_correct) = Return total /\
      py_truediv total (PyInt (len both_correct))
      = Return (PyFloat avg_correct) /\
      calculate_calibration both_correct
      = Return (PyFloat (PrimFloat.zero - avg_correct)) /\
      py_le (PyFloat (PrimFloat.zero - avg_correct)) (PyInt 0) = true) /\
  calculate_calibration both_correct = Return (PyFloat (-0.75)).
Proof.
  split.
  - apply calculate_calibration_all_correct.
    + discriminate.
    + repeat constructor.
    + repeat constructor.
    + reflexivity.
    + reflexivity.
  - vm_compute. reflexivity.
Defined.

Lemma filter_Permutation {A : Type} (f : A -> bool) (xs ys : list A) :
  Permutation xs ys -> Permutation (filter f xs) (filter f ys).
Proof.
  induction 1 as [|x xs ys _ IH|x y xs|xs ys zs _ IH1 _ IH2]; simpl.
  - constructor.
  - destruct (f x); [now constructor | assumption].
  - destruct (f x), (f y); try reflexivity. constructor.
  - now transitivity (filter f ys).
Qed.

Lemma average_int_Permutation (xs ys : list number) :
  Permutation xs ys ->
  Forall (fun a => is_int a = true) xs ->
  average xs = average ys.
Proof.
  intros HP Hxs. pose proof (Permutation_length HP) as Hl.
  destruct xs as [|x xs], ys as [|y ys]; try discriminate; [reflexivity|].
  unfold average, len. rewrite Hl.
  now rewrite (py_sum_int_Permutation _ _ HP Hxs).
Qed.

Lemma partition_ints (f : ResultRecord -> bool) (results : list ResultRecord) :
  Forall (fun res => is_int (hedge_score res) = true) results ->
  Forall (fun a => is_int a = true) (map hedge_score (filter f results)).
Proof.
  intros H. apply Forall_map. rewrite Forall_forall in *.
  intros res Hin. apply H. now apply filter_In in Hin.
Qed.

(** C8, amended: when every hedge score is an int (a lexical count), the
    metric of a permutation of the list is the metric of the list. *)
Theorem calculate_calibration_int_Permutation
    (results results' : list ResultRecord) :
  Permutation results results' ->
  Forall (fun res => is_int (hedge_score res) = true) results ->
  calculate_calibration results = calculate_calibration results'.
Proof.
  intros HP Hi. unfold calculate_calibration, correct_hedging, incorrect_hedging.
  rewrite (average_int_Permutation
             (map hedge_score (filter correct results))
             (map hedge_score (filter correct results'))).
  - rewrite (average_int_Permutation
               (map hedge_score (filter (fun res => negb (correct res)) results))
               (map hedge_score (filter (fun res => negb (correct res)) results'))).
    + reflexivity.
    + now apply Permutation_map, filter_Permutation.
    + now apply partition_ints.
  - now apply Permutation_map, filter_Permutation.
  - now apply partition_ints.
Qed.

Lemma calculate_calibration_int_Permutation_witness :
  calculate_calibration
    [ {| question := "q1"; llm_answer := "a1"; correct := true;
         hedge_score := PyInt 1 |};
      {| question := "q2"; llm_answer := "a2"; correct := false;
         hedge_score := PyInt 2 |} ]
  = calculate_calibration
      [ {| question := "q2"; llm_answer := "a2"; correct := false;
           hedge_score := PyInt 2 |};
        {| question := "q1"; llm_answer := "a1"; correct := true;
           hedge_score := PyInt 1 |} ].
Proof.
  apply calculate_calibration_int_Permutation.
  - apply perm_swap.
  - repeat constructor.
Defined.

(** C8, as stated, fails on float hedge scores: [descending] is a
    permutation of [ascending], and the two metrics differ
    (-0.20000000000000004 and -0.19999999999999998), because float
    addition is not associative. *)
Lemma calculate_calibration_order_matters :
  Permutation ascending descending /\
  calculate_calibration ascending <> calculate_calibration descending.
Proof.
  split.
  - unfold ascending, descending.
    apply (Permutation_rev [scored 0x1.999999999999ap-4;
                            scored 0x1.999999999999ap-3;
                            scored 0x1.3333333333333p-2]).
  - intros H.
    apply (f_equal (fun o => match o with
                             | Return (PyFloat f) =>
                                 PrimFloat.ltb f (-0x1.999999999999ap-3)
                             | _ => false
                             end)) in H.
    vm_compute in H. discriminate H.
Qed.

End CalibrationClaims.

(** ** The query and the two hedging estimates *)

Module ServiceClaims.
Import PyStr PyStrFacts PyExc PyNum LLMCalibrator.

(** The errors of the transport, of authentication, of rate limiting and
    of the provider are instances of [Exception]. *)
Lemma service_errors_are_Exceptions :
  Forall (fun e => isinstance_Exception e = true)
         [ConnectionError; Unauthenticated; ResourceExhausted;
          GoogleAPIError; ValueError].
Proof. repeat constructor. Qed.

(** C6: for every sentiment analyser, both estimates are defined on every
    answer, and both are 0 on the FAILURE text. *)
Theorem hedging_of_failure (polarity_scores : string -> polarity) :
  detect_hedging polarity_scores FAILURE = PyInt 0 /\
  detect_specific_hedges FAILURE = 0%Z /\
  (forall llm_answer, exists h, detect_hedging polarity_scores llm_answer = h) /\
  (forall llm_answer, exists h, detect_specific_hedges llm_answer = h).
Proof.
  repeat split; intros llm_answer; eexists; reflexivity.
Qed.

(** C9: whatever the question, when the only exceptions the service can
    raise are instances of [Exception] (as the errors of the transport,
    of authentication, of rate limiting and of the provider are),
    [query_llm] returns a text to its caller, and that text is FAILURE
    whenever the service raised. *)
Theorem query_llm_never_raises
    (generate_content : string -> string -> outcome string)
    (self_model_name question : string) (model_name : option string) :
  (forall e,
      generate_content (resolve_model_name self_model_name model_name) question
      = Raise e ->
      isinstance_Exception e = true) ->
  (exists llm_answer,
      fst (query_llm generate_content self_model_name question model_name)
      = Return llm_answer) /\
  (forall e,
      generate_content (resolve_model_name self_model_name model_name) question
      = Raise e ->
      fst (query_llm generate_content self_model_name question model_name)
      = Return FAILURE).
Proof.
  intros H. unfold query_llm.
  destruct (generate_content _ question) as [a|e] eqn:E.
  - split; [now exists a | discriminate].
  - rewrite (H e eq_refl). split; [now exists FAILURE | reflexivity].
Qed.

Lemma query_llm_never_raises_witness :
  (exists llm_answer,
      fst (query_llm (fun _ _ => Raise ResourceExhausted)
                     "gemini-1.5-flash" "What is the capital of France?" None)
      = Return llm_answer) /\
  (forall e,
      (Raise ResourceExhausted : outcome string) = Raise e ->
      fst (query_llm (fun _ _ => Raise ResourceExhausted)
                     "gemini-1.5-flash" "What is the capital of France?" None)
      = Return FAILURE).
Proof.
  apply (query_llm_never_raises (fun _ _ => Raise ResourceExhausted)
           "gemini-1.5-flash" "What is the capital of France?" None).
  intros e H. injection H as <-. reflexivity.
Defined.

(** C10: FAILURE is the plain text "Error querying model."; a service
    that answers with this very text and a service that raises lead
    [query_llm] to the same returned value; on this text, with a ground
    truth present, the evaluator answers [False], also for the ground
    truth "model", which occurs in it; and both hedging estimates
    are 0. *)
Theorem failure_text_is_ordinary :
  FAILURE = "Error querying model." /\
  (forall self_model_name question model_name,
      fst (query_llm (fun _ _ => Return "Error querying model.")
                     self_model_name question model_name)
      = fst (query_llm (fun _ _ => Raise GoogleAPIError)
                       self_model_name question model_name)) /\
  (forall gt, is_factually_correct "Error querying model." (Some gt) = false) /\
  occurs_ignoring_case "model" "Error querying model." /\
  (forall polarity_scores,
      detect_hedging polarity_scores "Error querying model." = PyInt 0) /\
  detect_specific_hedges "Error querying model." = 0%Z.
Proof.
  split; [reflexivity|]. split; [reflexivity|]. split; [reflexivity|].
  split; [|split; reflexivity].
  apply contains_lower. reflexivity.
Qed.

End ServiceClaims.

(** ** More on the answer evaluator and the lexical hedge count *)

Module TextFacts.
Import PyStr PyRe PyStrFacts PyReFacts PyExc PyNum LLMCalibrator TextClaims.

Lemma length_app (s t : string) :
  String.length (s ++ t) = String.length s + String.length t.
Proof. induction s; simpl; congruence. Qed.

Lemma app_assoc (s t u : string) : (s ++ t) ++ u = s ++ t ++ u.
Proof. induction s; simpl; congruence. Qed.

Lemma length_lower (s : string) : String.length (lower s) = String.length s.
Proof. induction s; simpl; congruence. Qed.

Lemma lower_char_idempotent (c : ascii) : lower_char (lower_char c) = lower_char c.
Proof. destruct c as [[] [] [] [] [] [] [] []]; reflexivity. Qed.

Lemma lower_idempotent (s : string) : lower (lower s) = lower s.
Proof. induction s; simpl; [reflexivity|]. now rewrite lower_char_idempotent, IHs. Qed.

Lemma lower_char_not_E (c : ascii) : lower_char c <> "E"%char.
Proof. destruct c as [[] [] [] [] [] [] [] []]; discriminate. Qed.

(** No lower-cased text is the FAILURE text, which begins with a capital. *)
Lemma lower_not_failure (s : string) : lower s <> FAILURE.
Proof.
  destruct s as [|c s]; [discriminate|]. simpl. unfold FAILURE.
  intros H. injection H as H _. now apply lower_char_not_E in H.
Qed.

Lemma contains_empty (s : string) : contains "" s = true.
Proof. now destruct s. Qed.

(** An empty ground truth makes every answer but the FAILURE text
    correct. *)
Theorem empty_ground_truth_is_correct (llm_answer : string) :
  llm_answer <> FAILURE ->
  is_factually_correct llm_answer (Some "") = true.
Proof.
  intros H. unfold is_factually_correct. rewrite (not_failure _ H).
  apply contains_empty.
Qed.

Lemma empty_ground_truth_is_correct_witness :
  "" <> FAILURE /\ is_factually_correct "" (Some "") = true.
Proof.
  split; [discriminate|].
  apply (empty_ground_truth_is_correct ""). discriminate.
Defined.

(** An ASCII answer shorter than the ASCII ground truth is incorrect. *)
Theorem shorter_answer_is_incorrect (llm_answer gt : string) :
  ascii_text llm_answer = true ->
  ascii_text gt = true ->
  String.length llm_answer < String.length gt ->
  is_factually_correct llm_answer (Some gt) = false.
Proof.
  intros _ _ H. unfold is_factually_correct.
  destruct (llm_answer =? FAILURE)%string; [reflexivity|].
  destruct (contains (lower gt) (lower llm_answer)) eqn:E; [|reflexivity].
  apply contains_spec in E. destruct E as (pre & post & E).
  apply (f_equal String.length) in E.
  rewrite !length_app, !length_lower in E. lia.
Qed.

Lemma shorter_answer_is_incorrect_witness :
  String.length "Par" < String.length "Paris" /\
  is_factually_correct "Par" (Some "Paris") = false.
Proof.
  split; [simpl; lia|].
  apply (shorter_answer_is_incorrect "Par" "Paris");
    [reflexivity | reflexivity | simpl; lia].
Defined.

(** The evaluator does not see the case of either text: only the test
    for the FAILURE text is case-sensitive. *)
Theorem is_factually_correct_ignores_case (llm_answer gt : string) :
  llm_answer <> FAILURE ->
  is_factually_correct (lower llm_answer) (Some (lower gt))
  = is_factually_correct llm_answer (Some gt).
Proof.
  intros H. unfold is_factually_correct.
  rewrite (not_failure _ H), (not_failure _ (lower_not_failure llm_answer)).
  now rewrite !lower_idempotent.
Qed.

Lemma is_factually_correct_ignores_case_witness :
  "ERROR QUERYING MODEL." <> FAILURE /\
  is_factually_correct (lower "ERROR QUERYING MODEL.") (Some (lower "Model"))
  = is_factually_correct "ERROR QUERYING MODEL." (Some "Model").
Proof.
  split; [discriminate|].
  apply (is_factually_correct_ignores_case "ERROR QUERYING MODEL." "Model").
  discriminate.
Defined.

(** ASCII text added around a correct ASCII answer leaves it correct,
    unless the whole becomes the FAILURE text. *)
Theorem is_factually_correct_embedded (pre llm_answer post gt : string) :
  ascii_text pre = true ->
  ascii_text llm_answer = true ->
  ascii_text post = true ->
  ascii_text gt = true ->
  llm_answer <> FAILURE ->
  pre ++ llm_answer ++ post <> FAILURE ->
  is_factually_correct llm_answer (Some gt) = true ->
  is_factually_correct (pre ++ llm_answer ++ post) (Some gt) = true.
Proof.
  intros _ _ _ _ H1 H2. unfold is_factually_correct.
  rewrite (not_failure _ H1), (not_failure _ H2), !contains_spec.
  intros (u & v & E). rewrite !lower_app, E.
  exists (lower pre ++ u), (v ++ lower post).
  now rewrite !app_assoc.
Qed.

Lemma is_factually_correct_embedded_witness :
  "Paris" <> FAILURE /\
  "It is " ++ "Paris" ++ ", I think." <> FAILURE /\
  is_factually_correct "Paris" (Some "paris") = true /\
  is_factually_correct ("It is " ++ "Paris" ++ ", I think.") (Some "paris") = true.
Proof.
  split; [discriminate|]. split; [discriminate|]. split; [reflexivity|].
  apply (is_factually_correct_embedded "It is " "Paris" ", I think." "paris");
    [reflexivity | reflexivity | reflexivity | reflexivity
    | discriminate | discriminate | reflexivity].
Defined.

End TextFacts.

(** ** The two models of the answer evaluator *)

Module UnicodeFacts.
Import PyStr PyStrFacts LLMCalibrator.










End UnicodeFacts.

Module HedgeFacts.
Import PyStr PyRe PyStrFacts PyReFacts PyExc PyNum PyNumFacts LLMCalibrator
       TextClaims TextFacts.

Lemma filter_nonempty_Exists {A : Type} (f : A -> bool) (xs : list A) :
  0 < length (filter f xs) <-> Exists (fun x => f x = true) xs.
Proof.
  induction xs as [|x xs IH]; simpl.
  - split; [lia | intros H; inversion H].
  - destruct (f x) eqn:E; simpl.
    + split; [intros _; now left | lia].
    + rewrite IH. split; [intros H; now right|].
      intros H. inversion H; subst; [congruence | assumption].
Qed.

Lemma filter_length_mono {A : Type} (f g : A -> bool) (xs : list A) :
  Forall (fun x => f x = true -> g x = true) xs ->
  length (filter f xs) <= length (filter g xs).
Proof.
  induction 1 as [|x xs Hx _ IH]; simpl; [lia|].
  destruct (f x) eqn:E.
  - rewrite (Hx eq_refl). simpl. lia.
  - destruct (g x); simpl; lia.
Qed.

(** The count of an ASCII answer is positive exactly when some marker of
    the list stands in the answer as a whole word or phrase, up to the
    case of its letters. *)
Theorem detect_specific_hedges_positive (llm_answer : string) :
  ascii_text llm_answer = true ->
  llm_answer <> FAILURE ->
  (0 < detect_specific_hedges llm_answer)%Z <->
  Exists (fun marker => whole_word_up_to_case marker llm_answer) hedge_words.
Proof.
  intros _ H. rewrite detect_specific_hedges_count, (not_failure _ H).
  change 0%Z with (Z.of_nat 0). rewrite <- Nat2Z.inj_lt.
  rewrite filter_nonempty_Exists, !Exists_exists.
  split; intros (marker & Hin & Hm); exists marker; (split; [assumption|]);
    now apply (hedge_found_whole_word llm_answer marker Hin).
Qed.

(** "Perhaps." counts 1, and a marker stands in it as a whole word. *)
Lemma detect_specific_hedges_positive_witness :
  detect_specific_hedges "Perhaps." = 1%Z /\
  Exists (fun marker => whole_word_up_to_case marker "Perhaps.") hedge_words.
Proof.
  split; [reflexivity|].
  apply (detect_specific_hedges_positive "Perhaps.");
    [reflexivity | discriminate | reflexivity].
Defined.

(** The count does not see the case of the answer. *)
Theorem detect_specific_hedges_ignores_case (llm_answer : string) :
  llm_answer <> FAILURE ->
  detect_specific_hedges (lower llm_answer) = detect_specific_hedges llm_answer.
Proof.
  intros H. rewrite !detect_specific_hedges_count.
  rewrite (not_failure _ H), (not_failure _ (lower_not_failure llm_answer)).
  now rewrite lower_idempotent.
Qed.

Lemma detect_specific_hedges_ignores_case_witness :
  "It MIGHT rain" <> FAILURE /\
  detect_specific_hedges (lower "It MIGHT rain")
  = detect_specific_hedges "It MIGHT rain".
Proof.
  split; [discriminate|].
  apply (detect_specific_hedges_ignores_case "It MIGHT rain"). discriminate.
Defined.

Lemma stands_alone_before_space (marker s t : string) :
  stands_alone_ignoring_case marker s ->
  stands_alone_ignoring_case marker (s ++ " " ++ t).
Proof.
  intros (pre & mid & post & -> & Hm & Hpre & Hpost).
  exists pre, mid, (post ++ " " ++ t). repeat split; try assumption.
  - now rewrite !app_assoc.
  - destruct post; [reflexivity | exact Hpost].
Qed.

(** A proper beginning of the FAILURE text, up to a space, holds no
    marker. *)
Lemma failure_prefix_no_hedge (s t : string) :
  s ++ " " ++ t = FAILURE -> detect_specific_hedges s = 0%Z.
Proof.
  unfold FAILURE. intros H.
  do 21 (destruct s as [|c s];
         [simpl in H; first [discriminate H | reflexivity]
         |simpl in H; injection H as -> H]).
  destruct s; discriminate H.
Qed.

Lemma detect_specific_hedges_nonneg (llm_answer : string) :
  (0 <= detect_specific_hedges llm_answer)%Z.
Proof.
  rewrite detect_specific_hedges_count.
  destruct (llm_answer =? FAILURE)%string; lia.
Qed.

(** Text added after a space never lowers the count. *)
Theorem detect_specific_hedges_monotone (llm_answer more : string) :
  (detect_specific_hedges llm_answer
   <= detect_specific_hedges (llm_answer ++ " " ++ more))%Z.
Proof.
  destruct (string_dec (llm_answer ++ " " ++ more) FAILURE) as [E|E].
  - rewrite (failure_prefix_no_hedge _ _ E). apply detect_specific_hedges_nonneg.
  - rewrite (detect_specific_hedges_count llm_answer).
    destruct (llm_answer =? FAILURE)%string eqn:F;
      [apply detect_specific_hedges_nonneg|].
    apply String.eqb_neq in F.
    rewrite detect_specific_hedges_count, (not_failure _ E).
    apply inj_le, filter_length_mono.
    pose proof hedge_words_word_ended as Hw.
    revert Hw. apply Forall_impl. intros marker Hm.
    rewrite !(hedge_found_stands_alone _ marker Hm).
    apply stands_alone_before_space.
Qed.

Lemma SFmul_nonneg (x : spec_float) (m : positive) (e : Z) :
  nonneg_sf x = true ->
  nonneg_sf (SFmul prec emax x (S754_finite false m e)) = true.
Proof.
  destruct x as [s|s| |s mx ex]; try discriminate.
  - reflexivity.
  - now destruct s.
  - destruct s; [discriminate|]. intros _. simpl. apply binary_round_aux_nonneg.
    lia.
Qed.

(** When the analyser gives non-negative [neg] and [neu], the sentiment
    estimate is a number [>= 0]. *)
Theorem detect_hedging_nonneg
    (polarity_scores : string -> polarity) (llm_answer : string) :
  PrimFloat.leb 0 (neg (polarity_scores llm_answer)) = true ->
  PrimFloat.leb 0 (neu (polarity_scores llm_answer)) = true ->
  py_le (PyInt 0) (detect_hedging polarity_scores llm_answer) = true.
Proof.
  intros Hneg Hneu. unfold detect_hedging.
  destruct (llm_answer =? FAILURE)%string; [reflexivity|].
  apply nonneg_py_le_0.
  rewrite leb_zero_nonneg in Hneg, Hneu.
  apply float_add_nonneg; [assumption|].
  rewrite mul_spec.
  change (Prim2SF 0.5) with (S754_finite false 4503599627370496 (-53)).
  now apply SFmul_nonneg.
Qed.

Lemma detect_hedging_nonneg_witness :
  py_le (PyInt 0)
        (detect_hedging
           (fun _ => {| neg := 0.25; neu := 0.5; pos := 0.25; compound := 0 |})
           "It might rain")
  = true.
Proof.
  apply (detect_hedging_nonneg
           (fun _ => {| neg := 0.25; neu := 0.5; pos := 0.25; compound := 0 |})
           "It might rain");
    reflexivity.
Defined.

End HedgeFacts.

(** ** More on the query *)

Module QueryFacts.
Import PyExc PyNum LLMCalibrator.

(** [query_llm] raises exactly the exceptions of the service that are not
    instances of [Exception] ([KeyboardInterrupt], [SystemExit]). *)
Theorem query_llm_raises_iff
    (generate_content : string -> string -> outcome string)
    (self_model_name question : string) (model_name : option string)
    (e : exception) :
  fst (query_llm generate_content self_model_name question model_name) = Raise e
  <->
  generate_content (resolve_model_name self_model_name model_name) question
  = Raise e /\ isinstance_Exception e = false.
Proof.
  unfold query_llm.
  destruct (generate_content _ question) as [a|e'] eqn:E.
  - split; [discriminate | intros [H _]; discriminate].
  - destruct (isinstance_Exception e') eqn:I; simpl.
    + split; [discriminate|]. intros [H F]. injection H as ->. congruence.
    + split.
      * intros H. injection H as ->. auto.
      * intros [H _]. exact H.
Qed.

(** The FAILURE text comes back in two cases only: the service answered
    with that very text, or it raised an instance of [Exception]. *)
Theorem query_llm_failure_iff
    (generate_content : string -> string -> outcome string)
    (self_model_name question : string) (model_name : option string) :
  fst (query_llm generate_content self_model_name question model_name)
  = Return FAILURE
  <->
  generate_content (resolve_model_name self_model_name model_name) question
  = Return FAILURE \/
  exists e,
    generate_content (resolve_model_name self_model_name model_name) question
    = Raise e /\ isinstance_Exception e = true.
Proof.
  unfold query_llm.
  destruct (generate_content _ question) as [a|e] eqn:E.
  - simpl. split.
    + intros H. now left.
    + intros [H|(e & H & _)]; [exact H | discriminate].
  - destruct (isinstance_Exception e) eqn:I; simpl.
    + split; [|reflexivity]. intros _. right. now exists e.
    + split; [discriminate|].
      intros [H|(e' & H & I')]; [discriminate|]. injection H as ->. congruence.
Qed.

(** A non-empty [model_name] argument replaces the model of the instance;
    an empty one counts as none, and the query goes to the model of the
    instance. *)
Theorem query_llm_model_name
    (generate_content : string -> string -> outcome string)
    (self_model_name question name : string) :
  name <> "" ->
  query_llm generate_content self_model_name question (Some name)
  = query_llm generate_content name question None /\
  query_llm generate_content self_model_name question (Some "")
  = query_llm generate_content self_model_name question None.
Proof.
  intros H. split; [|reflexivity]. unfold query_llm, resolve_model_name.
  apply String.eqb_neq in H. now rewrite H.
Qed.

Lemma query_llm_model_name_witness :
  "gemini-pro" <> "" /\
  query_llm (fun name _ => Return name) "gemini-1.5-flash" "Why?" (Some "gemini-pro")
  = query_llm (fun name _ => Return name) "gemini-pro" "Why?" None /\
  query_llm (fun name _ => Return name) "gemini-1.5-flash" "Why?" (Some "")
  = query_llm (fun name _ => Return name) "gemini-1.5-flash" "Why?" None.
Proof.
  split; [discriminate|].
  apply (query_llm_model_name (fun name _ => Return name)
           "gemini-1.5-flash" "Why?" "gemini-pro").
  discriminate.
Defined.

End QueryFacts.

(** ** More on the calibration metric *)

Module CalibrationFacts.
Import PyExc PyNum PyNumFacts LLMCalibrator Samples CalibrationClaims.
Local Open Scope Z_scope.

Lemma SFsub_zero (x : spec_float) : SFsub prec emax x (S754_zero false) = x.
Proof. destruct x as [s|s| |s m e]; try reflexivity. now destruct s. Qed.

(** [f - 0.0] is [f]. *)
Lemma float_sub_zero (f : float) : (f - 0)%float = f.
Proof.
  rewrite <- (SF2Prim_Prim2SF (f - 0)), sub_spec.
  change (Prim2SF 0) with (S754_zero false).
  now rewrite SFsub_zero, SF2Prim_Prim2SF.
Qed.

Lemma filter_false {A : Type} (f : A -> bool) (xs : list A) :
  Forall (fun x => f x = false) xs -> filter f xs = [].
Proof.
  induction 1 as [|x xs Hx _ IH]; simpl; [reflexivity|]. now rewrite Hx.
Qed.

Lemma filter_negb_false {A : Type} (f : A -> bool) (xs : list A) :
  Forall (fun x => f x = false) xs -> filter (fun x => negb (f x)) xs = xs.
Proof.
  induction 1 as [|x xs Hx _ IH]; simpl; [reflexivity|]. now rewrite Hx, IH.
Qed.

Lemma metric_all_incorrect (results : list ResultRecord) :
  results <> [] ->
  Forall (fun res => correct res = false) results ->
  calculate_calibration results = average (map hedge_score results).
Proof.
  intros Hne Hc. unfold calculate_calibration, correct_hedging, incorrect_hedging.
  rewrite (filter_false _ _ Hc), (filter_negb_false _ _ Hc).
  destruct results as [|r rs]; [congruence|]. cbn [map].
  cbn [average bind].
  change (total <- py_sum (hedge_score r :: map hedge_score rs) ;;
          py_truediv total
            (PyInt (len (hedge_score r :: map hedge_score rs))))
    with (average (hedge_score r :: map hedge_score rs)).
  destruct (average (hedge_score r :: map hedge_score rs)) as [v|e] eqn:E;
    [|reflexivity].
  destruct (average_cons_float _ _ _ E) as [q ->].
  cbn [bind py_sub]. rewrite float_of_int_0. cbn [bind].
  now rewrite float_sub_zero.
Qed.

(** When the list is not empty and no result is correct, the metric is the
    average hedge score of the list. *)
Theorem calculate_calibration_all_incorrect (results : list ResultRecord) :
  results <> [] ->
  Forall (fun res => correct res = false) results ->
  calculate_calibration results = average (map hedge_score results).
Proof. exact (metric_all_incorrect results). Qed.

Lemma calculate_calibration_all_incorrect_witness :
  calculate_calibration
    [ {| question := "q1"; llm_answer := FAILURE; correct := false;
         hedge_score := PyInt 0 |};
      {| question := "q2"; llm_answer := "It might be Rome"; correct := false;
         hedge_score := PyInt 1 |} ]
  = average (map hedge_score
    [ {| question := "q1"; llm_answer := FAILURE; correct := false;
         hedge_score := PyInt 0 |};
      {| question := "q2"; llm_answer := "It might be Rome"; correct := false;
         hedge_score := PyInt 1 |} ]).
Proof.
  apply calculate_calibration_all_incorrect.
  - discriminate.
  - repeat constructor.
Defined.

(** With no result correct, every hedge score [>= 0] and the int scores
    summing to less than [2 ** 1023], the metric is a number [>= 0] (the
    list being one that CPython can hold). *)
Theorem calculate_calibration_all_incorrect_nonneg (results : list ResultRecord) :
  Forall (fun res => correct res = false) results ->
  Forall (fun res => py_le (PyInt 0) (hedge_score res) = true) results ->
  int_total (map hedge_score results) < 2 ^ 1023 ->
  len results < 2 ^ 63 ->
  exists score,
    calculate_calibration results = Return score /\
    py_le (PyInt 0) score = true.
Proof.
  intros Hc Hh Ht Hlen. destruct results as [|r rs].
  - exists (PyInt 0). split; reflexivity.
  - rewrite metric_all_incorrect by (assumption || discriminate).
    assert (Hnn : Forall nonneg (map hedge_score (r :: rs))).
    { apply Forall_map. revert Hh. apply Forall_impl.
      intros res. apply py_le_0_nonneg. }
    assert (Hni : Forall nonneg_int (map hedge_score (r :: rs))).
    { revert Hnn. apply Forall_impl. intros [z|f]; simpl; auto. }
    assert (Hl : len (map hedge_score (r :: rs)) = len (r :: rs)).
    { unfold len. now rewrite length_map. }
    destruct (py_sum_returns _ Hni Ht) as (total & Et & H1 & H2).
    pose proof (py_sum_nonneg _ total Hnn Et) as Hpos.
    destruct (len_cons r rs) as [p Hp]. rewrite Hp in *.
    destruct (py_truediv_pos_returns total p H1 H2) as [v Ev].
    { pose proof pow_63_1023. lia. }
    destruct (py_truediv_pos_float _ _ _ Ev) as [q ->].
    pose proof (py_truediv_pos_nonneg _ _ _ Hpos Ev) as Hq.
    exists (PyFloat q). split; [|now apply nonneg_py_le_0].
    change (average (map hedge_score (r :: rs)))
      with (t <- py_sum (map hedge_score (r :: rs)) ;;
            py_truediv t (PyInt (len (map hedge_score (r :: rs))))).
    rewrite Et, Hl. exact Ev.
Qed.

(** One incorrect result with the score 0.5: the metric is 0.5. *)
Lemma calculate_calibration_all_incorrect_nonneg_witness :
  (exists score,
      calculate_calibration [ result false (PyFloat 0.5) ] = Return score /\
      py_le (PyInt 0) score = true) /\
  calculate_calibration [ result false (PyFloat 0.5) ] = Return (PyFloat 0.5).
Proof.
  split.
  - apply calculate_calibration_all_incorrect_nonneg.
    + repeat constructor.
    + repeat constructor.
    + reflexivity.
    + reflexivity.
  - vm_compute. reflexivity.
Defined.

Lemma py_sub_float (a b : number) (v : number) :
  is_int a = false \/ is_int b = false ->
  py_sub a b = Return v -> exists f, v = PyFloat f.
Proof.
  destruct a as [x|f], b as [y|g]; simpl; intros [H|H]; try discriminate.
  - destruct (float_of_int x); simpl; [|discriminate].
    intros E. injection E as <-. eexists. reflexivity.
  - destruct (float_of_int y); simpl; [|discriminate].
    intros E. injection E as <-. eexists. reflexivity.
  - intros E. injection E as <-. eexists. reflexivity.
  - intros E. injection E as <-. eexists. reflexivity.
Qed.

Lemma metric_float (results : list ResultRecord) (score : number) :
  results <> [] ->
  calculate_calibration results = Return score ->
  exists f, score = PyFloat f.
Proof.
  intros Hne. unfold calculate_calibration.
  destruct (average (correct_hedging results)) as [a|e1] eqn:Ea;
    [|discriminate]. cbn [bind].
  destruct (average (incorrect_hedging results)) as [b|e2] eqn:Eb;
    [|discriminate]. cbn [bind].
  apply py_sub_float.
  destruct results as [|r rs]; [congruence|].
  unfold correct_hedging, incorrect_hedging in Ea, Eb. simpl in Ea, Eb.
  destruct (correct r); simpl in Ea, Eb.
  - destruct (average_cons_float _ _ _ Ea) as [q ->]. now right.
  - destruct (average_cons_float _ _ _ Eb) as [q ->]. now left.
Qed.

(** On a list that is not empty the metric is never an int: it is a
    float, or the call raises [OverflowError]; only the empty list gives
    the int 0. *)
Theorem calculate_calibration_float (results : list ResultRecord) :
  results <> [] ->
  calculate_calibration results = Raise OverflowError \/
  exists f, calculate_calibration results = Return (PyFloat f).
Proof.
  intros Hne. destruct (calculate_calibration results) as [score|e] eqn:E.
  - right. destruct (metric_float results score Hne E) as [f ->]. now exists f.
  - left. now rewrite (calculate_calibration_Raise results e E).
Qed.

(** Both cases occur: a score within the range gives a float, the int
    [2 ** 1024] raises. *)
Lemma calculate_calibration_float_witness :
  (calculate_calibration [ result true (PyInt 0) ] = Raise OverflowError \/
   exists f,
     calculate_calibration [ result true (PyInt 0) ] = Return (PyFloat f)) /\
  calculate_calibration [ result true (PyInt 0) ] = Return (PyFloat 0) /\
  calculate_calibration overflowing = Raise OverflowError.
Proof.
  split; [|split].
  - apply calculate_calibration_float. discriminate.
  - vm_compute. reflexivity.
  - vm_compute. reflexivity.
Defined.

Lemma py_sum_zeros (xs : list number) :
  Forall (fun a => a = PyInt 0) xs -> py_sum xs = Return (PyInt 0).
Proof.
  unfold py_sum. induction 1 as [|x xs Hx _ IH]; simpl; [reflexivity|].
  now rewrite Hx.
Qed.

Lemma average_zeros (xs : list number) :
  Forall (fun a => a = PyInt 0) xs ->
  average xs = Return (match xs with [] => PyInt 0 | _ :: _ => PyFloat 0 end).
Proof.
  intros H. destruct xs as [|x xs]; [reflexivity|].
  unfold average. rewrite (py_sum_zeros _ H).
  destruct (len_cons x xs) as [p ->]. reflexivity.
Qed.

Lemma partition_zeros (f : ResultRecord -> bool) (results : list ResultRecord) :
  Forall (fun res => hedge_score res = PyInt 0) results ->
  Forall (fun a => a = PyInt 0) (map hedge_score (filter f results)).
Proof.
  intros H. apply Forall_map. rewrite Forall_forall in *.
  intros res Hin. apply H. now apply filter_In in Hin.
Qed.

(** When every hedge score is the int 0 (as when every query failed), the
    metric is zero: the int 0 on the empty list, the float 0.0
    otherwise. *)
Theorem calculate_calibration_zero_scores (results : list ResultRecord) :
  Forall (fun res => hedge_score res = PyInt 0) results ->
  calculate_calibration results
  = Return (match results with [] => PyInt 0 | _ :: _ => PyFloat 0 end).
Proof.
  intros H. destruct results as [|r rs]; [reflexivity|].
  unfold calculate_calibration, correct_hedging, incorrect_hedging.
  rewrite (average_zeros _ (partition_zeros correct _ H)).
  rewrite (average_zeros _
             (partition_zeros (fun res => negb (correct res)) _ H)).
  simpl filter.
  destruct (correct r); simpl negb; cbn [map bind].
  - destruct (map hedge_score
                (filter (fun res => negb (correct res)) rs)); reflexivity.
  - destruct (map hedge_score (filter correct rs)); reflexivity.
Qed.

Lemma calculate_calibration_zero_scores_witness :
  calculate_calibration
    [ {| question := "q1"; llm_answer := FAILURE; correct := false;
         hedge_score := PyInt 0 |};
      {| question := "q2"; llm_answer := FAILURE; correct := true;
         hedge_score := PyInt 0 |} ]
  = Return (PyFloat 0).
Proof.
  apply (calculate_calibration_zero_scores
    [ {| question := "q1"; llm_answer := FAILURE; correct := false;
         hedge_score := PyInt 0 |};
      {| question := "q2"; llm_answer := FAILURE; correct := true;
         hedge_score := PyInt 0 |} ]).
  repeat constructor.
Defined.

End CalibrationFacts.

(** ** The constructor *)

Module ConstructorFacts.
Import PyExc LLMCalibrator Constructor.

Ltac run_init :=
  unfold init, resolve_api_key, first_key, and_then, except_Exception,
    except_DownloadError_Exception, perform, pure, raise, truthy in *;
  repeat (simpl in *;
          match goal with
          | |- context [match ?x with _ => _ end] =>
              lazymatch x with
              | context [match _ with _ => _ end] => fail
              | _ => destruct x eqn:?
              end
          | H : context [match ?x with _ => _ end] |- _ =>
              lazymatch x with
              | context [match _ with _ => _ end] => fail
              | _ => destruct x eqn:?
              end
          end);
  simpl in *.

(** [__init__] fails with [ValueError] before any call outside the class
    exactly when no model name is given. *)
Theorem init_model_name_required
    (w : world) (api_key model_name : option string) :
  init w api_key model_name = (Raise ValueError, []) <-> model_name = None.
Proof.
  split.
  - destruct model_name as [name|]; [|reflexivity]. run_init;
      intros H; first [discriminate H | congruence].
  - intros ->. reflexivity.
Qed.

Ltac use_handler_hypothesis :=
  repeat match goal with
         | H : forall e, Raise _ = Raise e -> _ |- _ =>
             pose proof (H _ eq_refl); clear H
         | H : forall e, ?x = Raise e -> _, E : ?x = Raise _ |- _ =>
             pose proof (H _ E); clear H
         end.

(** [genai.configure] is called with the first non-empty key among the
    argument, the environment variable and the Colab user data, and with
    no other. *)
Theorem init_configures_first_key
    (w : world) (api_key : option string) (name key : string) :
  In (GenaiConfigure key) (snd (init w api_key (Some name))) <->
  first_key w api_key = Some key.
Proof. run_init; intuition congruence. Qed.

(** The sources of the key are asked in order and only as far as needed:
    the environment only without a key argument, the Colab user data only
    when the environment has none either. *)
Theorem init_sources_in_order
    (w : world) (api_key : option string) (name : string) :
  (In EnvironGet (snd (init w api_key (Some name))) <->
   truthy api_key = false) /\
  (In ColabUserdataGet (snd (init w api_key (Some name))) <->
   truthy api_key = false /\ truthy (environ_get w) = false).
Proof. run_init; intuition congruence. Qed.

(** With a model name but no key in any source, [__init__] raises
    [ValueError]; an [Exception] raised by the Colab user data is
    swallowed on the way. *)
Theorem init_missing_key
    (w : world) (api_key : option string) (name : string) :
  first_key w api_key = None ->
  (forall e, colab_userdata_get w = Raise e -> isinstance_Exception e = true) ->
  fst (init w api_key (Some name)) = Raise ValueError.
Proof.
  intros H H0. run_init; use_handler_hypothesis; congruence.
Qed.

Lemma init_missing_key_witness :
  fst (init {| environ_get := Some "";
               colab_userdata_get := Raise (OtherException "ImportError");
               genai_configure := fun _ => Return tt;
               nltk_data_find := Return tt;
               has_DownloadError := false;
               is_DownloadError := fun _ => false;
               nltk_download := Return tt;
               new_analyzer := Raise ValueError |}
            None (Some "gemini-1.5-flash"))
  = Raise ValueError.
Proof.
  apply init_missing_key.
  - reflexivity.
  - simpl. intros e H. injection H as <-. reflexivity.
Defined.

(** [nltk.download] is called exactly when the lookup of the lexicon was
    reached and raised, the name [nltk.downloader.DownloadError] of the
    first handler exists, and the exception is an instance of it or of
    [Exception]. *)
Theorem init_nltk_download
    (w : world) (api_key : option string) (name : string) :
  In NltkDownload (snd (init w api_key (Some name))) <->
  In NltkDataFind (snd (init w api_key (Some name))) /\
  has_DownloadError w = true /\
  exists e, nltk_data_find w = Raise e /\
            (is_DownloadError w e || isinstance_Exception e) = true.
Proof.
  run_init; try congruence;
    (split;
     [intros H;
      first [solve [intuition discriminate]
            |split; [intuition | split; [reflexivity|];
                     eexists; split; [reflexivity | assumption]]]
     |intros [H [D (e' & E & I)]];
      try discriminate D;
      try (first [discriminate E | injection E as <-]);
      intuition (try discriminate; try congruence)]).
Qed.

(** When the lookup of the lexicon raises and [nltk.downloader] has no
    attribute [DownloadError], [__init__] raises [AttributeError]: the
    lexicon is not downloaded and no analyser is built. *)
Theorem init_DownloadError_missing
    (w : world) (api_key : option string) (name : string) (e : exception) :
  In NltkDataFind (snd (init w api_key (Some name))) ->
  nltk_data_find w = Raise e ->
  has_DownloadError w = false ->
  fst (init w api_key (Some name)) = Raise AttributeError /\
  ~ In NltkDownload (snd (init w api_key (Some name))) /\
  ~ In NewSentimentIntensityAnalyzer (snd (init w api_key (Some name))).
Proof.
  intros H E D. revert H.
  run_init; intros H; try congruence;
    try (exfalso; intuition congruence);
    (split; [reflexivity|]; split; intuition discriminate).
Qed.

Lemma init_DownloadError_missing_witness :
  fst (init lexicon_missing (Some "key") (Some "gemini-1.5-flash"))
  = Raise AttributeError /\
  ~ In NltkDownload
      (snd (init lexicon_missing (Some "key") (Some "gemini-1.5-flash"))) /\
  ~ In NewSentimentIntensityAnalyzer
      (snd (init lexicon_missing (Some "key") (Some "gemini-1.5-flash"))).
Proof.
  apply (init_DownloadError_missing lexicon_missing (Some "key")
           "gemini-1.5-flash" (OtherException "LookupError")).
  - simpl. auto.
  - reflexivity.
  - reflexivity.
Defined.

(** When [__init__] returns, the instance carries the model name it was
    given and the analyser that was built, [genai.configure] has
    accepted the first non-empty key, and the lexicon was found or, its
    lookup having raised an exception that a handler takes, downloaded. *)
Theorem init_success
    (w : world) (api_key model_name : option string) (self : instance) :
  fst (init w api_key model_name) = Return self ->
  model_name = Some (Constructor.model_name self) /\
  new_analyzer w = Return (sentiment_analyzer self) /\
  (exists key,
      first_key w api_key = Some key /\ genai_configure w key = Return tt) /\
  (nltk_data_find w = Return tt \/
   has_DownloadError w = true /\
   nltk_download w = Return tt /\
   exists e, nltk_data_find w = Raise e /\
             (is_DownloadError w e || isinstance_Exception e) = true).
Proof.
  destruct model_name as [name|]; [|discriminate].
  run_init; intros H; try discriminate H; try congruence;
    injection H as <-; simpl;
    (split; [reflexivity|]; split; [reflexivity|]; split;
     [eexists; split; [reflexivity|];
      match goal with E : genai_configure w _ = Return ?u |- _ =>
                        destruct u; exact E end
     |repeat match goal with u : unit |- _ => destruct u end;
      first [left; reflexivity
            |right; split; [reflexivity|]; split; [reflexivity|];
             eexists; split; [reflexivity | assumption]]]).
Qed.

Lemma init_success_witness :
  fst (init lexicon_present (Some "") (Some "gemini-1.5-flash"))
  = Return {| model_name := "gemini-1.5-flash";
              sentiment_analyzer := neutral |} /\
  Some "gemini-1.5-flash"
  = Some (Constructor.model_name
            {| model_name := "gemini-1.5-flash";
               sentiment_analyzer := neutral |}) /\
  new_analyzer lexicon_present
  = Return (sentiment_analyzer
              {| model_name := "gemini-1.5-flash";
                 sentiment_analyzer := neutral |}) /\
  (exists key,
      first_key lexicon_present (Some "") = Some key /\
      genai_configure lexicon_present key = Return tt) /\
  (nltk_data_find lexicon_present = Return tt \/
   has_DownloadError lexicon_present = true /\
   nltk_download lexicon_present = Return tt /\
   exists e, nltk_data_find lexicon_present = Raise e /\
             (is_DownloadError lexicon_present e || isinstance_Exception e)
             = true).
Proof.
  split; [reflexivity|].
  apply (init_success lexicon_present (Some "") (Some "gemini-1.5-flash")).
  reflexivity.
Defined.

End ConstructorFacts.

(** ** The report *)

Module ReporterFacts.
Import PyNum LLMCalibrator Reporter.






End ReporterFacts.
